(** * ChatPDF client: transport client, streaming consumer and orchestrators

    A shallow embedding of [ChatUI/src/services/api.js] (class [ApiService])
    and of the [App] component's state logic, followed by the properties
    the specification states about them.

    Conventions.
    - A JavaScript string is its sequence of UTF-16 code units ([jsstring]).
    - An [async] function is modelled by the function from the outcomes of
      the promises it awaits to its own effects and outcome.
    - Caller-supplied callbacks are recorded as a trace of invocations. *)

From Stdlib Require Import List NArith ZArith Bool Lia.
From Stdlib Require Ascii String DecimalString.
Import ListNotations String.StringSyntax.
Delimit Scope string_scope with string.

(** ** Host values: strings, JSON values, coercions *)

Module JS.

(** A string: its UTF-16 code units. *)
Abbreviation jsstring := (list N).

(** A string literal of the source, as code units. *)
Definition js (s : String.string) : jsstring :=
  map Ascii.N_of_ascii (String.list_ascii_of_string s).
Arguments js s%_string.

(** A literal that contains double quotes, written with single quotes in
    their place. *)
Definition jsq (s : String.string) : jsstring :=
  map (fun c => if N.eqb c 39 then 34%N else c) (js s).
Arguments jsq s%_string.

(** The line feed of ['\n']. *)
Definition LF : N := 10.

Fixpoint str_eqb (a b : jsstring) : bool :=
  match a, b with
  | [], [] => true
  | x :: a', y :: b' => N.eqb x y && str_eqb a' b'
  | _, _ => false
  end.

(** [s.split(sep)] for a one-unit separator. *)
Fixpoint split (sep : N) (s : jsstring) : list jsstring :=
  match s with
  | [] => [[]]
  | c :: s' =>
      if N.eqb c sep then [] :: split sep s'
      else match split sep s' with
           | [] => [[c]]
           | l :: ls => (c :: l) :: ls
           end
  end.

(** [s.startsWith(p)] *)
Fixpoint startsWith (s p : jsstring) {struct p} : bool :=
  match p, s with
  | [], _ => true
  | x :: p', y :: s' => N.eqb x y && startsWith s' p'
  | _ :: _, [] => false
  end.

(** [s.slice(n)] for [n >= 0]. *)
Definition slice (n : nat) (s : jsstring) : jsstring := skipn n s.

(** WhiteSpace and LineTerminator code units (ECMA-262, 12.2 and 12.3). *)
Definition is_whitespace (c : N) : bool :=
  ((9 <=? c) && (c <=? 13) || (c =? 32) || (c =? 160) || (c =? 5760)
   || (8192 <=? c) && (c <=? 8202) || (c =? 8232) || (c =? 8233)
   || (c =? 8239) || (c =? 8287) || (c =? 12288) || (c =? 65279))%N.

Fixpoint trimStart (s : jsstring) : jsstring :=
  match s with
  | c :: s' => if is_whitespace c then trimStart s' else s
  | [] => []
  end.

Definition trimEnd (s : jsstring) : jsstring := rev (trimStart (rev s)).

(** [s.trim()] *)
Definition trim (s : jsstring) : jsstring := trimEnd (trimStart s).

(** A non-negative integer in a template literal: its decimal digits. *)
Definition decimal (n : N) : jsstring :=
  js (DecimalString.NilZero.string_of_uint (N.to_uint n)).

(** The values [JSON.parse] and [response.json()] produce.  Numbers are
    carried as integers; the code only tests them for zero. *)
#[warnings="-register-all"]
Inductive JSValue : Type :=
| JNull
| JBool (b : bool)
| JNumber (z : Z)
| JString (s : jsstring)
| JArray (items : list JSValue)
| JObject (members : list (jsstring * JSValue)).

(** ToBoolean *)
Definition truthy (v : JSValue) : bool :=
  match v with
  | JNull => false
  | JBool b => b
  | JNumber z => negb (Z.eqb z 0)
  | JString s => match s with [] => false | _ => true end
  | JArray _ | JObject _ => true
  end.

(** The result of a property read [v.k]. *)
Inductive PropRead : Type :=
| PropThrows               (* [null.k] raises a TypeError *)
| PropUndefined
| PropValue (v : JSValue).

(** Own property of a parsed object: of duplicated keys the last wins. *)
Fixpoint lookup (k : jsstring) (members : list (jsstring * JSValue))
  : option JSValue :=
  match members with
  | [] => None
  | (k', v) :: rest =>
      match lookup k rest with
      | Some w => Some w
      | None => if str_eqb k' k then Some v else None
      end
  end.

(** [v.k] for a key [k] that no prototype defines. *)
Definition get (v : JSValue) (k : jsstring) : PropRead :=
  match v with
  | JNull => PropThrows
  | JObject members =>
      match lookup k members with
      | Some w => PropValue w
      | None => PropUndefined
      end
  | _ => PropUndefined
  end.

End JS.

(** ** services/api.js: class ApiService *)

Module Api.
Import JS.

(** What a rejected promise or a [throw] carries. *)
Inductive HostFailure : Type :=
| NetworkFailure          (* [fetch] rejects *)
| BodyNotJSON             (* [response.json()] rejects *)
| PropertyOfNull          (* a property read on [null] *)
| BodyIsNull              (* [response.body] is [null] *)
| ReadFailure             (* [reader.read()] rejects *)
| NotCoercible.           (* [String(x)] raises *)

Inductive Exn : Type :=
| Error (message : jsstring)      (* [new Error(message)] *)
| Host (h : HostFailure).

(** The body of a response as the reader delivers it: for each read that
    is not [done], the text [decoder.decode(value, { stream: true })]
    returns for it, and then how the reads end. *)
Inductive ReadEnd : Type :=
| Done
| ReadRejects (e : Exn).

Definition Stream : Type := (list jsstring * ReadEnd)%type.

Record Response : Type := mkResponse {
  ok : bool;
  status : N;
  json : option JSValue;       (* [None]: [response.json()] rejects *)
  body : option Stream         (* [None]: [response.body] is [null] *)
}.

Inductive FetchOutcome : Type :=
| FetchRejects (e : Exn)
| FetchResolves (r : Response).

(** The outcome of an [async] method. *)
Inductive Settled (A : Type) : Type :=
| Fulfilled (a : A)
| Rejected (e : Exn).
Arguments Fulfilled {A} a.
Arguments Rejected {A} e.

(** Invocations of the three callbacks of [streamMessage]. *)
Inductive Callback : Type :=
| onChunk (parsed : JSValue)
| onComplete
| onError (e : Exn).

Section Host.

(** [JSON.parse]: [None] when it raises a SyntaxError. *)
Variable JSON_parse : jsstring -> option JSValue.

(** [String(x)] on a value that is not a string: [None] when it raises. *)
Variable String_of : JSValue -> option jsstring.

(** [new Error(x)] *)
Definition new_Error (x : JSValue) : Exn :=
  match x with
  | JString s => Error s
  | _ => match String_of x with
         | Some m => Error m
         | None => Host NotCoercible
         end
  end.

(** [error.detail || fallback], then [throw new Error(...)]. *)
Definition throw_detail_or (error : JSValue) (fallback : jsstring) : Exn :=
  match get error (js "detail") with
  | PropThrows => Host PropertyOfNull
  | PropUndefined => Error fallback
  | PropValue d => if truthy d then new_Error d else Error fallback
  end.

(** [await response.json().catch(() => ({}))] *)
Definition json_or_empty (r : Response) : JSValue :=
  match json r with
  | Some v => v
  | None => JObject []
  end.

(** [request(endpoint, options)], given what [fetch] settles to: the
    calls of [console.error] and the outcome. *)
Definition request (endpoint : jsstring) (f : FetchOutcome)
  : list (jsstring * Exn) * Settled JSValue :=
  match f with
  | FetchRejects e => ([(endpoint, e)], Rejected e)
  | FetchResolves response =>
      if negb (ok response) then
        let error := json_or_empty response in
        let e := throw_detail_or error
                   (js "HTTP error " ++ decimal (status response)) in
        ([(endpoint, e)], Rejected e)
      else
        match json response with
        | Some v => ([], Fulfilled v)
        | None => ([], Rejected (Host BodyNotJSON))
        end
  end.

(** [uploadDocuments(sessionId, files)], given what [fetch] settles to. *)
Definition uploadDocuments (f : FetchOutcome) : Settled JSValue :=
  match f with
  | FetchRejects e => Rejected e
  | FetchResolves response =>
      if negb (ok response) then
        let error := json_or_empty response in
        Rejected (throw_detail_or error (js "Upload failed"))
      else
        match json response with
        | Some v => Fulfilled v
        | None => Rejected (Host BodyNotJSON)
        end
  end.

(** The [for (const line of lines)] loop of [processStream]: the callback
    invocations, and whether the loop left the function by [return]. *)
Fixpoint process_lines (lines : list jsstring) : list Callback * bool :=
  match lines with
  | [] => ([], false)
  | line :: rest =>
      if startsWith line (js "data: ") then
        let data := slice 6 line in
        if str_eqb data (js "[DONE]") then ([onComplete], true)
        else
          match JSON_parse data with
          | Some parsed =>
              let (calls, returned) := process_lines rest in
              (onChunk parsed :: calls, returned)
          | None => process_lines rest
          end
      else process_lines rest
  end.

(** [processStream]: the [while (true)] loop over the reads. *)
Fixpoint processStream_reads (reads : list jsstring) (fin : ReadEnd)
  : list Callback * Settled unit :=
  match reads with
  | [] =>
      match fin with
      | Done => ([onComplete], Fulfilled tt)
      | ReadRejects e => ([], Rejected e)
      end
  | chunk :: rest =>
      let lines := split LF chunk in
      let (calls, returned) := process_lines lines in
      if returned then (calls, Fulfilled tt)
      else
        let (calls', out) := processStream_reads rest fin in
        (calls ++ calls', out)
  end.

Definition processStream (s : Stream) : list Callback * Settled unit :=
  processStream_reads (fst s) (snd s).

(** [streamMessage(sessionId, message, onChunk, onComplete, onError)],
    given what [fetch] settles to: the callbacks invoked, in order. *)
Definition streamMessage (f : FetchOutcome) : list Callback :=
  match f with
  | FetchRejects e => [onError e]
  | FetchResolves response =>
      match body response with
      | None => [onError (Host BodyIsNull)]
      | Some s =>
          match processStream s with
          | (calls, Fulfilled _) => calls
          | (calls, Rejected e) => calls ++ [onError e]
          end
      end
  end.

End Host.

End Api.

(** ** App: session, document and chat state *)

Module App.
Import JS.

(** An entry of [documents]. *)
Record Doc : Type := mkDoc {
  id : jsstring;
  filename : jsstring;
  size : N;
  status : jsstring
}.

(** A dropped [File]. *)
Record File : Type := mkFile {
  name : jsstring;
  file_size : N
}.

(** The body of a successful upload: [{job_id, documents}]. *)
Record UploadedDoc : Type := mkUploadedDoc {
  up_filename : jsstring;
  up_document_id : jsstring
}.

Record UploadResponse : Type := mkUploadResponse {
  job_id : jsstring;
  up_documents : list UploadedDoc
}.

(** The body of a status poll: [{status, documents}]. *)
Record DocStatus : Type := mkDocStatus {
  document_id : jsstring;
  doc_status : jsstring
}.

Record JobStatus : Type := mkJobStatus {
  job_status : jsstring;
  job_documents : list DocStatus
}.

Record Reference : Type := mkReference {
  document_name : jsstring;
  page_number : N
}.

(** The body of a chat answer: [{answer, references}]. *)
Record ChatResponse : Type := mkChatResponse {
  answer : jsstring;
  chat_references : list Reference
}.

(** An entry of [messages]; a user message has no [references] key. *)
Record Message : Type := mkMessage {
  role : jsstring;
  content : jsstring;
  references : option (list Reference)
}.

(** The [useState] cells of [App]. *)
Record State : Type := mkState {
  sessionId : option jsstring;
  documents : list Doc;
  messages : list Message;
  inputMessage : jsstring;
  isLoading : bool;
  processingStatus : option JobStatus;
  error : option jsstring;
  showUploadPanel : bool
}.

Definition setDocuments (f : list Doc -> list Doc) (st : State) : State :=
  mkState (sessionId st) (f (documents st)) (messages st) (inputMessage st)
          (isLoading st) (processingStatus st) (error st) (showUploadPanel st).

Definition setMessages (f : list Message -> list Message) (st : State)
  : State :=
  mkState (sessionId st) (documents st) (f (messages st)) (inputMessage st)
          (isLoading st) (processingStatus st) (error st) (showUploadPanel st).

Definition setInputMessage (s : jsstring) (st : State) : State :=
  mkState (sessionId st) (documents st) (messages st) s
          (isLoading st) (processingStatus st) (error st) (showUploadPanel st).

Definition setIsLoading (b : bool) (st : State) : State :=
  mkState (sessionId st) (documents st) (messages st) (inputMessage st)
          b (processingStatus st) (error st) (showUploadPanel st).

Definition setProcessingStatus (p : option JobStatus) (st : State) : State :=
  mkState (sessionId st) (documents st) (messages st) (inputMessage st)
          (isLoading st) p (error st) (showUploadPanel st).

Definition setError (e : option jsstring) (st : State) : State :=
  mkState (sessionId st) (documents st) (messages st) (inputMessage st)
          (isLoading st) (processingStatus st) e (showUploadPanel st).

(** [!x] for a string that may be [null]. *)
Definition falsy (x : option jsstring) : bool :=
  match x with
  | Some (_ :: _) => false
  | _ => true
  end.

(** The outcome of a call awaited by the component. *)
Inductive Outcome (A : Type) : Type :=
| Returns (a : A)
| Throws.
Arguments Returns {A} a.
Arguments Throws {A}.

(** *** onDrop *)

(** [acceptedFiles.map(file => ({ id: `temp - ${Date.now()} -${file.name} `,
    ... }))]; [Date_now i] is the clock read for the file at index [i]. *)
Fixpoint newDocs_from (Date_now : nat -> N) (i : nat) (files : list File)
  : list Doc :=
  match files with
  | [] => []
  | file :: rest =>
      mkDoc (js "temp - " ++ decimal (Date_now i) ++ js " -" ++ name file
               ++ js " ")
            (name file) (file_size file) (js "pending")
      :: newDocs_from Date_now (S i) rest
  end.

Definition newDocs (Date_now : nat -> N) (acceptedFiles : list File)
  : list Doc :=
  newDocs_from Date_now 0 acceptedFiles.

(** [onDrop] up to its [await]: [None] when it returns at once, otherwise
    the state and the files handed to [apiService.uploadDocuments]. *)
Definition onDrop_start (Date_now : nat -> N) (acceptedFiles : list File)
  (st : State) : option (State * list File) :=
  if falsy (sessionId st) then None
  else
    Some (setDocuments (fun prev => prev ++ newDocs Date_now acceptedFiles) st,
          acceptedFiles).

(** [response.documents.find(d => d.filename === doc.filename)] *)
Definition find_by_filename (response : UploadResponse) (doc : Doc)
  : option UploadedDoc :=
  find (fun d => str_eqb (up_filename d) (filename doc))
       (up_documents response).

(** The updater passed to [setDocuments] after the upload. *)
Definition reconcile (response : UploadResponse) (prev : list Doc)
  : list Doc :=
  map (fun doc =>
         match find_by_filename response doc with
         | Some matchingDoc =>
             mkDoc (up_document_id matchingDoc) (filename doc) (size doc)
                   (js "processing")
         | None => doc
         end) prev.

(** [onDrop] after its [await]: the state, and the job to poll if any. *)
Definition onDrop_settle (upload : Outcome UploadResponse) (st : State)
  : State * option jsstring :=
  match upload with
  | Returns response =>
      (setDocuments (reconcile response) st, Some (job_id response))
  | Throws => (setError (Some (js "Error al subir documentos")) st, None)
  end.

(** *** pollProcessingStatus *)

(** [status.documents.find(d => d.document_id === doc.id)] *)
Definition find_by_id (status : JobStatus) (doc : Doc) : option DocStatus :=
  find (fun d => str_eqb (document_id d) (id doc)) (job_documents status).

(** The updater passed to [setDocuments] in [poll]. *)
Definition merge (status : JobStatus) (prev : list Doc) : list Doc :=
  map (fun doc =>
         match find_by_id status doc with
         | Some matchingDoc =>
             mkDoc (id doc) (filename doc) (size doc) (doc_status matchingDoc)
         | None => doc
         end) prev.

(** [status.status !== 'completed' && status.status !== 'failed'] *)
Definition not_terminal (status : JobStatus) : bool :=
  negb (str_eqb (job_status status) (js "completed"))
  && negb (str_eqb (job_status status) (js "failed")).

(** What one run of [poll] does besides updating the state. *)
Inductive PollEffect : Type :=
| getProcessingStatus (jobId : jsstring)
| setTimeout_poll (delay : N)
| console_error.

(** One run of [poll] after its [await]: the state, and whether [poll]
    was handed to [setTimeout]. *)
Definition poll_settle (fetched : Outcome JobStatus) (st : State)
  : State * list PollEffect * bool :=
  match fetched with
  | Returns status =>
      let st1 := setProcessingStatus (Some status) st in
      let st2 := setDocuments (merge status) st1 in
      if not_terminal status then (st2, [setTimeout_poll 2000], true)
      else (setProcessingStatus None st2, [], false)
  | Throws => (st, [console_error], false)
  end.

(** [pollProcessingStatus(jobId)]: [poll] and the runs the timer starts.
    [server] lists what the status endpoint would answer to successive
    requests; a run is started only while answers remain. *)
Fixpoint pollProcessingStatus (jobId : jsstring)
  (server : list (Outcome JobStatus)) (st : State)
  : State * list PollEffect :=
  match server with
  | [] => (st, [])
  | fetched :: later =>
      match poll_settle fetched st with
      | (st', effects, true) =>
          let (st'', effects') := pollProcessingStatus jobId later st' in
          (st'', getProcessingStatus jobId :: effects ++ effects')
      | (st', effects, false) =>
          (st', getProcessingStatus jobId :: effects)
      end
  end.

(** *** sendMessage *)

(** [sendMessage] up to its [await]: [None] when it returns at once,
    otherwise the state and the arguments of [apiService.sendMessage]. *)
Definition sendMessage_start (st : State)
  : option (State * (option jsstring * jsstring)) :=
  if falsy (Some (trim (inputMessage st))) || falsy (sessionId st)
     || isLoading st
  then None
  else
    let userMessage := trim (inputMessage st) in
    let st1 := setInputMessage [] st in
    let st2 :=
      setMessages
        (fun prev => prev ++ [mkMessage (js "user") userMessage None]) st1 in
    let st3 := setIsLoading true st2 in
    let st4 := setError None st3 in
    Some (st4, (sessionId st, userMessage)).

(** [sendMessage] after its [await], [finally] included. *)
Definition sendMessage_settle (reply : Outcome ChatResponse) (st : State)
  : State :=
  let st' :=
    match reply with
    | Returns response =>
        setMessages
          (fun prev => prev ++ [mkMessage (js "assistant") (answer response)
                                  (Some (chat_references response))])
          st
    | Throws => setError (Some (js "Error al obtener respuesta")) st
    end in
  setIsLoading false st'.

(** [deleteDocument(docId)] *)
Definition deleteDocument (docId : jsstring) (st : State) : State :=
  setDocuments (filter (fun d => negb (str_eqb (id d) docId))) st.

End App.

(** ** A host for concrete runs

    [JSON.parse] and [String] are the engine's.  The properties below hold
    for any behaviour of them; where a concrete run is evaluated, it is on
    this host: a parser of the JSON texts whose numbers are integers and
    whose strings have no escapes (other texts are rejected), and the
    coercion of parsed values to strings. *)

Module Sample.
Import JS.

Definition is_json_ws (c : N) : bool :=
  ((c =? 32) || (c =? 9) || (c =? 10) || (c =? 13))%N.

Fixpoint skip_ws (s : jsstring) : jsstring :=
  match s with
  | c :: s' => if is_json_ws c then skip_ws s' else s
  | [] => []
  end.

Definition is_digit (c : N) : bool := ((48 <=? c) && (c <=? 57))%N.

Fixpoint digits (s : jsstring) : list N * jsstring :=
  match s with
  | c :: s' =>
      if is_digit c then let (ds, r) := digits s' in ((c - 48)%N :: ds, r)
      else ([], s)
  | [] => ([], [])
  end.

Definition number_value (ds : list N) : Z :=
  fold_left (fun acc d => (10 * acc + Z.of_N d)%Z) ds 0%Z.

(** An optional minus sign and an integer without leading zeros, not
    followed by a fraction or an exponent. *)
Definition number (s : jsstring) : option (JSValue * jsstring) :=
  let '(negative, s1) :=
    match s with
    | c :: r => if (c =? 45)%N then (true, r) else (false, s)
    | [] => (false, s)
    end in
  match digits s1 with
  | ([], _) => None
  | (d :: ds, r) =>
      let leading_zero :=
        (d =? 0)%N && match ds with [] => false | _ => true end in
      let continues :=
        match r with
        | c :: _ => ((c =? 46) || (c =? 101) || (c =? 69))%N
        | [] => false
        end in
      if leading_zero || continues then None
      else
        let z := number_value (d :: ds) in
        Some (JNumber (if negative then (- z)%Z else z), r)
  end.

(** The characters of a string up to its closing quote. *)
Fixpoint string_body (s : jsstring) : option (jsstring * jsstring) :=
  match s with
  | [] => None
  | c :: r =>
      if (c =? 34)%N then Some ([], r)
      else if ((c <? 32) || (c =? 92))%N then None
      else
        match string_body r with
        | Some (t, r') => Some (c :: t, r')
        | None => None
        end
  end.

Fixpoint value (fuel : nat) (s : jsstring) {struct fuel}
  : option (JSValue * jsstring) :=
  match fuel with
  | O => None
  | S f =>
      let s := skip_ws s in
      if startsWith s (js "null") then Some (JNull, skipn 4 s)
      else if startsWith s (js "true") then Some (JBool true, skipn 4 s)
      else if startsWith s (js "false") then Some (JBool false, skipn 5 s)
      else
        match s with
        | [] => None
        | c :: r =>
            if (c =? 34)%N then
              match string_body r with
              | Some (t, r') => Some (JString t, r')
              | None => None
              end
            else if (c =? 91)%N then
              match skip_ws r with
              | c' :: r' =>
                  if (c' =? 93)%N then Some (JArray [], r')
                  else
                    match items f r with
                    | Some (l, r'') => Some (JArray l, r'')
                    | None => None
                    end
              | [] => None
              end
            else if (c =? 123)%N then
              match skip_ws r with
              | c' :: r' =>
                  if (c' =? 125)%N then Some (JObject [], r')
                  else
                    match members f r with
                    | Some (l, r'') => Some (JObject l, r'')
                    | None => None
                    end
              | [] => None
              end
            else number s
        end
  end
with items (fuel : nat) (s : jsstring) {struct fuel}
  : option (list JSValue * jsstring) :=
  match fuel with
  | O => None
  | S f =>
      match value f s with
      | None => None
      | Some (v, r) =>
          match skip_ws r with
          | c :: r' =>
              if (c =? 44)%N then
                match items f r' with
                | Some (l, r'') => Some (v :: l, r'')
                | None => None
                end
              else if (c =? 93)%N then Some ([v], r')
              else None
          | [] => None
          end
      end
  end
with members (fuel : nat) (s : jsstring) {struct fuel}
  : option (list (jsstring * JSValue) * jsstring) :=
  match fuel with
  | O => None
  | S f =>
      match skip_ws s with
      | q :: r0 =>
          if (q =? 34)%N then
            match string_body r0 with
            | None => None
            | Some (k, r1) =>
                match skip_ws r1 with
                | colon :: r2 =>
                    if (colon =? 58)%N then
                      match value f r2 with
                      | None => None
                      | Some (v, r3) =>
                          match skip_ws r3 with
                          | c :: r4 =>
                              if (c =? 44)%N then
                                match members f r4 with
                                | Some (l, r5) => Some ((k, v) :: l, r5)
                                | None => None
                                end
                              else if (c =? 125)%N then Some ([(k, v)], r4)
                              else None
                          | [] => None
                          end
                      end
                    else None
                | [] => None
                end
            end
          else None
      | [] => None
      end
  end.

Definition JSON_parse (text : jsstring) : option JSValue :=
  match value (2 * length text + 2) text with
  | Some (v, r) => match skip_ws r with [] => Some v | _ => None end
  | None => None
  end.

Definition decimalZ (z : Z) : jsstring :=
  match z with
  | Zneg p => 45%N :: decimal (Npos p)
  | _ => decimal (Z.to_N z)
  end.

(** [String(v)] for a parsed value; an object that has an own [toString]
    member is not coercible. *)
Fixpoint String_of (v : JSValue) : option jsstring :=
  match v with
  | JNull => Some (js "null")
  | JBool b => Some (if b then js "true" else js "false")
  | JNumber z => Some (decimalZ z)
  | JString s => Some s
  | JArray l =>
      (fix join (l : list JSValue) : option jsstring :=
         match l with
         | [] => Some []
         | x :: l' =>
             match match x with JNull => Some [] | _ => String_of x end,
                   join l' with
             | Some a, Some b =>
                 Some (match l' with [] => a | _ => a ++ 44%N :: b end)
             | _, _ => None
             end
         end) l
  | JObject m =>
      match lookup (js "toString") m with
      | Some _ => None
      | None => Some (js "[object Object]")
      end
  end.

End Sample.


(** ** The streaming consumer as the specification words it

    The decoded text of the whole response is cut into lines; the lines
    that carry the event marker are the frames; the frames are delivered in
    order up to the sentinel. *)

Module Spec.
Import JS Api.

Section Host.

Variable JSON_parse : jsstring -> option JSValue.

(** The payloads of the lines prefixed with the event marker. *)
Fixpoint frames (lines : list jsstring) : list jsstring :=
  match lines with
  | [] => []
  | line :: rest =>
      if startsWith line (js "data: ") then slice 6 line :: frames rest
      else frames rest
  end.

(** Delivery of the payloads, in order, until the sentinel. *)
Fixpoint deliver (payloads : list jsstring) : list Callback * bool :=
  match payloads with
  | [] => ([], false)
  | data :: rest =>
      if str_eqb data (js "[DONE]") then ([onComplete], true)
      else
        let (calls, finished) := deliver rest in
        match JSON_parse data with
        | Some parsed => (onChunk parsed :: calls, finished)
        | None => (calls, finished)
        end
  end.

(** The callbacks for a response body made of the lines [lines]. *)
Definition delivered (lines : list jsstring) (fin : ReadEnd)
  : list Callback :=
  let (calls, finished) := deliver (frames lines) in
  if finished then calls
  else
    match fin with
    | Done => calls ++ [onComplete]
    | ReadRejects e => calls ++ [onError e]
    end.

(** The callbacks for a response body whose decoded text is [wire]. *)
Definition streamed (wire : jsstring) (fin : ReadEnd) : list Callback :=
  delivered (split LF wire) fin.

End Host.

(** A read ends a line when it is empty or its last unit is a line feed. *)
Definition ends_line (chunk : jsstring) : bool :=
  match rev chunk with
  | [] => true
  | c :: _ => N.eqb c LF
  end.

End Spec.

(** ** Runs of the component *)

Module Run.
Import JS Api App.

(** What the component reacts to. *)
Inductive Op : Type :=
| Drop (Date_now : nat -> N) (acceptedFiles : list File)
| Uploaded (upload : Outcome UploadResponse)
| Polled (fetched : Outcome JobStatus)
| Delete (docId : jsstring).

Definition step (st : State) (op : Op) : State :=
  match op with
  | Drop Date_now acceptedFiles =>
      match onDrop_start Date_now acceptedFiles st with
      | Some (st', _) => st'
      | None => st
      end
  | Uploaded upload => fst (onDrop_settle upload st)
  | Polled fetched => fst (fst (poll_settle fetched st))
  | Delete docId => deleteDocument docId st
  end.

Definition run (ops : list Op) (st : State) : State := fold_left step ops st.

(** The state once the session [sid] is created. *)
Definition session (sid : jsstring) : State :=
  mkState (Some sid) [] [] [] false None None false.

(** A response that carries the stream [s] as its body. *)
Definition streaming (ok : bool) (status : N) (s : Stream) : Response :=
  mkResponse ok status None (Some s).

(** The frames [data: {"a":1}], [data: {"a":2}], [data: [DONE]], each
    ended by a line feed. *)
Definition three_frames : jsstring :=
  jsq "data: {'a':1}" ++ [LF] ++ jsq "data: {'a':2}" ++ [LF]
  ++ js "data: [DONE]" ++ [LF].

Definition a_is (z : Z) : JSValue := JObject [(js "a", JNumber z)].

End Run.

(** ** services/api.js: what [request] hands to [fetch], and its callers *)

Module Transport.
Import JS Api.


(** A plain object: its own properties, in the order they were written;
    of a repeated key the last entry holds the value ([JS.lookup]).  A
    property whose value is [undefined] is not represented. *)
Abbreviation object := (list (jsstring * JSValue)).

(** The index keys ["0"], ["1"], ... of an array or a string. *)
Fixpoint indexed_from (i : N) (l : list JSValue) : object :=
  match l with
  | [] => []
  | v :: rest => (decimal i, v) :: indexed_from (N.succ i) rest
  end.

(** The properties [...v] copies into an object literal; [None] is
    [undefined]. *)
Definition spread (v : option JSValue) : object :=
  match v with
  | Some (JObject members) => members
  | Some (JArray items) => indexed_from 0 items
  | Some (JString s) => indexed_from 0 (map (fun c => JString [c]) s)
  | _ => []
  end.


(** [{ headers: { 'Content-Type': 'application/json', ...options.headers },
       ...options }] *)
Definition request_config (options : object) : object :=
  (js "headers",
   JObject ((js "Content-Type", JString (js "application/json"))
              :: spread (lookup (js "headers") options)))
  :: options.


Section Host.

(** [JSON.stringify] *)
Variable JSON_stringify : JSValue -> jsstring.





End Host.

End Transport.

(** ** App: what the component renders from its state *)

Module View.
Import JS App.

(** [documents.some(d => d.status === 'completed')] *)
Definition hasReadyDocuments (st : State) : bool :=
  existsb (fun d => str_eqb (status d) (js "completed")) (documents st).

(** The send button: [disabled={!inputMessage.trim() || isLoading}] *)
Definition send_disabled (st : State) : bool :=
  falsy (Some (trim (inputMessage st))) || isLoading st.

(** The text area: [disabled={!sessionId}] *)
Definition input_disabled (st : State) : bool := falsy (sessionId st).

(** The suggestion chips are rendered on the welcome screen, which stands
    for an empty history, when some document is ready. *)
Definition suggestions_shown (st : State) : bool :=
  match messages st with
  | [] => hasReadyDocuments st
  | _ => false
  end.

End View.

(** ** App: the component as a reactive system

    The state of the component together with the calls it is awaiting, and
    its reaction to each event: a user action or the settling of an awaited
    call.  Each event is handled on the state the events before it left
    (the component has rendered in between).  A settling that no call
    awaits does not occur. *)

Module Loop.
Import JS App.

Definition setSessionId (s : option jsstring) (st : State) : State :=
  mkState s (documents st) (messages st) (inputMessage st)
          (isLoading st) (processingStatus st) (error st) (showUploadPanel st).

Definition setShowUploadPanel (b : bool) (st : State) : State :=
  mkState (sessionId st) (documents st) (messages st) (inputMessage st)
          (isLoading st) (processingStatus st) (error st) b.

(** [createSession] after its [await]; the answer's [session_id] is [None]
    when the answer has none. *)
Definition createSession_settle (created : Outcome (option jsstring))
  (st : State) : State :=
  match created with
  | Returns session_id => setSessionId session_id st
  | Throws => setError (Some (js "Error al conectar con el servidor")) st
  end.

Record Sys : Type := mkSys {
  ui : State;
  creating : bool;       (* [createSession] is awaited *)
  sending : nat;         (* awaited calls of [apiService.sendMessage] *)
  uploading : nat;       (* awaited calls of [apiService.uploadDocuments] *)
  polling : nat          (* polling loops that have not stopped *)
}.

Inductive Event : Type :=
| SessionSettles (created : Outcome (option jsstring))
| Typed (text : jsstring)
| KeyPress (key : jsstring) (shiftKey : bool)
| SendClicked
| ChatSettles (reply : Outcome ChatResponse)
| Dropped (Date_now : nat -> N) (acceptedFiles : list File)
| UploadSettles (upload : Outcome UploadResponse)
| PollSettles (fetched : Outcome JobStatus)
| DeleteClicked (docId : jsstring)
| ErrorDismissed
| PanelToggled
| PanelSet (open : bool).

(** The component on mount: the [useState] defaults, [createSession]
    called. *)
Definition mounted : Sys :=
  mkSys (mkState None [] [] [] false None None false) true 0 0 0.

(** A call of [sendMessage]. *)
Definition send (s : Sys) : Sys :=
  match sendMessage_start (ui s) with
  | Some (st, _) =>
      mkSys st (creating s) (S (sending s)) (uploading s) (polling s)
  | None => s
  end.

Definition with_ui (st : State) (s : Sys) : Sys :=
  mkSys st (creating s) (sending s) (uploading s) (polling s).

Definition react (s : Sys) (e : Event) : Sys :=
  match e with
  | SessionSettles created =>
      if creating s then
        mkSys (createSession_settle created (ui s)) false (sending s)
              (uploading s) (polling s)
      else s
  | Typed text => with_ui (setInputMessage text (ui s)) s
  | KeyPress key shiftKey =>
      (* [if (e.key === 'Enter' && !e.shiftKey)] *)
      if str_eqb key (js "Enter") && negb shiftKey then send s else s
  | SendClicked => send s
  | ChatSettles reply =>
      match sending s with
      | S n =>
          mkSys (sendMessage_settle reply (ui s)) (creating s) n
                (uploading s) (polling s)
      | O => s
      end
  | Dropped Date_now acceptedFiles =>
      match onDrop_start Date_now acceptedFiles (ui s) with
      | Some (st, _) =>
          mkSys st (creating s) (sending s) (S (uploading s)) (polling s)
      | None => s
      end
  | UploadSettles upload =>
      match uploading s with
      | S n =>
          match onDrop_settle upload (ui s) with
          | (st, Some _) =>
              mkSys st (creating s) (sending s) n (S (polling s))
          | (st, None) => mkSys st (creating s) (sending s) n (polling s)
          end
      | O => s
      end
  | PollSettles fetched =>
      match polling s with
      | S n =>
          match poll_settle fetched (ui s) with
          | (st, _, true) =>
              mkSys st (creating s) (sending s) (uploading s) (S n)
          | (st, _, false) =>
              mkSys st (creating s) (sending s) (uploading s) n
          end
      | O => s
      end
  | DeleteClicked docId => with_ui (deleteDocument docId (ui s)) s
  | ErrorDismissed => with_ui (setError None (ui s)) s
  | PanelToggled =>
      with_ui (setShowUploadPanel (negb (showUploadPanel (ui s))) (ui s)) s
  | PanelSet open => with_ui (setShowUploadPanel open (ui s)) s
  end.

Definition run (events : list Event) (s : Sys) : Sys :=
  fold_left react events s.

(** The roles of a history in which every answer comes right after a
    question. *)
Fixpoint answers_follow (after_user : bool) (history : list Message)
  : bool :=
  match history with
  | [] => true
  | m :: rest =>
      if str_eqb (role m) (js "user") then answers_follow true rest
      else if str_eqb (role m) (js "assistant") then
             after_user && answers_follow false rest
           else false
  end.

(** At most one send is awaited, the loading flag tells whether one is,
    every answer of the history follows a question, and a question is the
    last message while its answer is awaited. *)
Definition chat_invariant (s : Sys) : Prop :=
  answers_follow false (messages (ui s)) = true
  /\ ((sending s = 0 /\ isLoading (ui s) = false)
      \/ (sending s = 1 /\ isLoading (ui s) = true
          /\ exists h u, messages (ui s) = h ++ [u] /\ role u = js "user")).

(** Before a session exists the component holds nothing and awaits
    nothing but the session. *)
Definition idle_invariant (s : Sys) : Prop :=
  (creating s = true -> sessionId (ui s) = None)
  /\ (falsy (sessionId (ui s)) = true ->
      documents (ui s) = [] /\ messages (ui s) = []
      /\ sending s = 0 /\ uploading s = 0 /\ polling s = 0).

(** The events that call [sendMessage] or settle its call. *)
Definition chat_event (e : Event) : bool :=
  match e with
  | KeyPress _ _ | SendClicked | ChatSettles _ => true
  | _ => false
  end.

(** The events that put no file into the list and settle no upload. *)
Definition no_upload (e : Event) : bool :=
  match e with
  | Dropped _ _ | UploadSettles _ => false
  | _ => true
  end.

End Loop.

(** ** Strings *)

Module StringFacts.
Import JS.

Lemma str_eqb_refl (a : jsstring) : str_eqb a a = true.
Proof.
  induction a as [|x a IH]; simpl; [reflexivity|].
  now rewrite N.eqb_refl, IH.
Qed.

Lemma str_eqb_eq (a b : jsstring) : str_eqb a b = true <-> a = b.
Proof.
  split; [|intros ->; apply str_eqb_refl].
  revert b; induction a as [|x a IH]; intros [|y b]; simpl; try discriminate;
    [reflexivity|].
  intros H; apply andb_true_iff in H as [Hxy Hab].
  apply N.eqb_eq in Hxy; subst y. f_equal; auto.
Qed.

Lemma str_eqb_neq (a b : jsstring) : a <> b -> str_eqb a b = false.
Proof.
  intros H; destruct (str_eqb a b) eqn:E; [|reflexivity].
  apply str_eqb_eq in E; contradiction.
Qed.

Lemma startsWith_app (p s : jsstring) : startsWith (p ++ s) p = true.
Proof.
  induction p as [|x p IH]; simpl; [reflexivity|].
  now rewrite N.eqb_refl, IH.
Qed.

Lemma slice_app (p s : jsstring) : slice (length p) (p ++ s) = s.
Proof. induction p; simpl; auto. Qed.

Lemma split_not_nil (sep : N) (s : jsstring) : split sep s <> [].
Proof.
  destruct s as [|c s]; simpl; [discriminate|].
  destruct (N.eqb c sep); [discriminate|].
  destruct (split sep s); discriminate.
Qed.

(** Cutting at a separator cuts the list of pieces. *)
Lemma split_app_sep (sep : N) (a b : jsstring) :
  split sep (a ++ sep :: b) = split sep a ++ split sep b.
Proof.
  induction a as [|c a IH]; simpl.
  - now rewrite N.eqb_refl.
  - destruct (N.eqb c sep); [now rewrite IH|].
    rewrite IH. pose proof (split_not_nil sep a) as Hne.
    destruct (split sep a); [contradiction|reflexivity].
Qed.


Lemma ends_line_inv (chunk : jsstring) :
  Spec.ends_line chunk = true ->
  chunk = [] \/ exists l, chunk = l ++ [LF].
Proof.
  unfold Spec.ends_line. intros H.
  destruct (rev chunk) as [|c r] eqn:E.
  - left. apply (f_equal (@rev N)) in E. now rewrite rev_involutive in E.
  - right. apply N.eqb_eq in H; subst c. exists (rev r).
    apply (f_equal (@rev N)) in E. now rewrite rev_involutive in E.
Qed.

End StringFacts.

(** ** The streaming consumer *)

Module StreamFacts.
Import JS Api StringFacts.

Section Host.

Variable JSON_parse : jsstring -> option JSValue.

#[local] Arguments startsWith : simpl never.
#[local] Arguments slice : simpl never.
#[local] Arguments js : simpl never.
#[local] Arguments split : simpl never.

#[local] Abbreviation process_lines := (process_lines JSON_parse).
#[local] Abbreviation processStream_reads := (processStream_reads JSON_parse).

Lemma process_lines_app (l1 l2 : list jsstring) :
  process_lines (l1 ++ l2) =
  let (c1, r1) := process_lines l1 in
  if r1 then (c1, true)
  else let (c2, r2) := process_lines l2 in (c1 ++ c2, r2).
Proof.
  induction l1 as [|line l1 IH]; simpl.
  - now destruct (process_lines l2).
  - destruct (startsWith line (js "data: ")); [|exact IH].
    destruct (str_eqb _ _); [reflexivity|].
    destruct (JSON_parse _); [|exact IH].
    rewrite IH. destruct (process_lines l1) as [c1 [|]]; [reflexivity|].
    now destruct (process_lines l2).
Qed.

(** The loop over the lines is the delivery of their frames. *)
Lemma process_lines_frames (lines : list jsstring) :
  process_lines lines = Spec.deliver JSON_parse (Spec.frames lines).
Proof.
  induction lines as [|line rest IH]; simpl; [reflexivity|].
  destruct (startsWith line (js "data: ")); [|exact IH].
  simpl. destruct (str_eqb _ _); [reflexivity|].
  rewrite <- IH. now destruct (JSON_parse _), (process_lines rest).
Qed.

Lemma process_lines_empty_line : process_lines [[]] = ([], false).
Proof. reflexivity. Qed.

(** A read that ends a line hands its successor a fresh line. *)
Lemma process_lines_split_aligned (chunk later : jsstring) :
  Spec.ends_line chunk = true ->
  process_lines (split LF (chunk ++ later)) =
  let (c1, r1) := process_lines (split LF chunk) in
  if r1 then (c1, true)
  else let (c2, r2) := process_lines (split LF later) in (c1 ++ c2, r2).
Proof.
  intros H. destruct (ends_line_inv _ H) as [->|[l ->]].
  - simpl. now destruct (process_lines (split LF later)).
  - rewrite <- app_assoc. simpl.
    replace (l ++ [LF]) with (l ++ LF :: []) by reflexivity.
    rewrite !split_app_sep, !process_lines_app. simpl.
    destruct (process_lines (split LF l)) as [c1 [|]]; [reflexivity|].
    now rewrite app_nil_r.
Qed.

Lemma processStream_reads_aligned (reads : list jsstring) (fin : ReadEnd) :
  forallb Spec.ends_line (removelast reads) = true ->
  processStream_reads reads fin =
  let (calls, returned) := process_lines (split LF (concat reads)) in
  if returned then (calls, Fulfilled tt)
  else
    match fin with
    | Done => (calls ++ [onComplete], Fulfilled tt)
    | ReadRejects e => (calls, Rejected e)
    end.
Proof.
  induction reads as [|chunk rest IH]; intros H.
  - simpl. now destruct fin.
  - destruct rest as [|next rest].
    + simpl. rewrite app_nil_r.
      destruct (process_lines (split LF chunk)) as [c [|]]; [reflexivity|].
      destruct fin; [reflexivity|now rewrite app_nil_r].
    + change (removelast (chunk :: next :: rest))
        with (chunk :: removelast (next :: rest)) in H.
      simpl forallb in H. apply andb_true_iff in H as [Hc Hrest].
      specialize (IH Hrest).
      change (concat (chunk :: next :: rest))
        with (chunk ++ concat (next :: rest)).
      rewrite (process_lines_split_aligned _ _ Hc).
      change (processStream_reads (chunk :: next :: rest) fin) with
        (let (calls, returned) := process_lines (split LF chunk) in
         if returned then (calls, Fulfilled tt)
         else let (calls', out) := processStream_reads (next :: rest) fin in
              (calls ++ calls', out)).
      rewrite IH.
      destruct (process_lines (split LF chunk)) as [c1 [|]]; [reflexivity|].
      destruct (process_lines (split LF (concat (next :: rest)))) as [c2 [|]];
        [reflexivity|].
      destruct fin; [now rewrite app_assoc|reflexivity].
Qed.

(** The reads are cut into lines one by one, and the lines of all reads
    go through the line loop in the order of the reads. *)
Lemma processStream_reads_lines (reads : list jsstring) (fin : ReadEnd) :
  processStream_reads reads fin =
  let (calls, returned) := process_lines (flat_map (split LF) reads) in
  if returned then (calls, Fulfilled tt)
  else
    match fin with
    | Done => (calls ++ [onComplete], Fulfilled tt)
    | ReadRejects e => (calls, Rejected e)
    end.
Proof.
  induction reads as [|chunk rest IH].
  - simpl. now destruct fin.
  - cbn [flat_map Api.processStream_reads].
    rewrite process_lines_app, IH.
    destruct (process_lines (split LF chunk)) as [c1 [|]]; [reflexivity|].
    destruct (process_lines (flat_map (split LF) rest)) as [c2 [|]];
      [reflexivity|].
    destruct fin; [now rewrite app_assoc|reflexivity].
Qed.

(** The line loop invokes [onChunk] only, and [onComplete] last when it
    returns. *)
Lemma process_lines_shape (lines : list jsstring) :
  exists (parsed : list JSValue) (returned : bool),
    process_lines lines
    = (map onChunk parsed ++ (if returned then [onComplete] else []),
       returned).
Proof.
  induction lines as [|line rest (parsed & returned & IH)]; simpl.
  - now exists (@nil JSValue), false.
  - destruct (startsWith line (js "data: ")); [|now exists parsed, returned].
    destruct (str_eqb _ _); [now exists (@nil JSValue), true|].
    destruct (JSON_parse _) as [v|]; [|now exists parsed, returned].
    exists (v :: parsed), returned. now rewrite IH.
Qed.


(** The response's [ok], [status] and JSON view are never consulted. *)
Lemma streamMessage_body_only (o : bool) (st : N) (j : option JSValue)
  (b : option Stream) :
  streamMessage JSON_parse (FetchResolves (mkResponse o st j b)) =
  streamMessage JSON_parse (FetchResolves (mkResponse true 200 None b)).
Proof. reflexivity. Qed.

Lemma streamMessage_fetch_rejects (e : Exn) :
  streamMessage JSON_parse (FetchRejects e) = [onError e].
Proof. reflexivity. Qed.

(** Whatever [fetch] settles to, the callbacks are invocations of
    [onChunk] followed by exactly one of [onComplete] and [onError]. *)
Lemma streamMessage_shape (f : FetchOutcome) :
  exists parsed last,
    streamMessage JSON_parse f = map onChunk parsed ++ [last]
    /\ (last = onComplete \/ exists e, last = onError e).
Proof.
  destruct f as [e|[o st j [[reads fin]|]]];
    [exists (@nil JSValue), (onError e); eauto | |
     exists (@nil JSValue), (onError (Host BodyIsNull)); eauto].
  unfold streamMessage, processStream. cbn [body fst snd].
  rewrite processStream_reads_lines.
  destruct (process_lines_shape (flat_map (split LF) reads))
    as (parsed & [|] & ->).
  - exists parsed, onComplete. eauto.
  - rewrite app_nil_r. destruct fin as [|e].
    + exists parsed, onComplete. eauto.
    + exists parsed, (onError e). eauto.
Qed.

Lemma streamMessage_lines (r : Response) (reads : list jsstring)
  (fin : ReadEnd) :
  body r = Some (reads, fin) ->
  streamMessage JSON_parse (FetchResolves r) =
  Spec.delivered JSON_parse (flat_map (split LF) reads) fin.
Proof.
  intros Hb. unfold streamMessage, processStream, Spec.delivered.
  rewrite Hb. simpl fst; simpl snd.
  rewrite processStream_reads_lines, <- process_lines_frames.
  destruct (process_lines (flat_map (split LF) reads)) as [c [|]];
    [reflexivity|].
  now destruct fin.
Qed.

Lemma streamMessage_aligned (r : Response) (reads : list jsstring)
  (fin : ReadEnd) :
  body r = Some (reads, fin) ->
  forallb Spec.ends_line (removelast reads) = true ->
  streamMessage JSON_parse (FetchResolves r) =
  Spec.streamed JSON_parse (concat reads) fin.
Proof.
  intros Hb H.
  unfold streamMessage, processStream, Spec.streamed, Spec.delivered.
  rewrite Hb. simpl fst; simpl snd.
  rewrite (processStream_reads_aligned _ fin H), <- process_lines_frames.
  destruct (process_lines (split LF (concat reads))) as [c [|]];
    [reflexivity|].
  now destruct fin.
Qed.

End Host.

End StreamFacts.

(** ** Properties of the streaming consumer *)

Import JS Api App Run.

(** C1 (as amended): for every response body whose decoded text begins with
    the frames [data: {"a":1}], [data: {"a":2}], [data: [DONE]], each ended
    by a line feed, and whose reads, the last excepted, each end a line,
    [streamMessage] invokes [onChunk] with [{a:1}], then [onChunk] with
    [{a:2}], then [onComplete], and nothing else: whatever follows the
    sentinel, in the same read or in later ones, and however the reads
    end. *)
Theorem streamMessage_three_frames
  (JSON_parse : jsstring -> option JSValue) (r : Response)
  (reads : list jsstring) (fin : ReadEnd) (rest : jsstring) :
  JSON_parse (jsq "{'a':1}") = Some (a_is 1) ->
  JSON_parse (jsq "{'a':2}") = Some (a_is 2) ->
  body r = Some (reads, fin) ->
  forallb Spec.ends_line (removelast reads) = true ->
  concat reads = three_frames ++ rest ->
  streamMessage JSON_parse (FetchResolves r)
  = [onChunk (a_is 1); onChunk (a_is 2); onComplete].
Proof.
  intros H1 H2 Hb Hal Hwire.
  rewrite (StreamFacts.streamMessage_aligned JSON_parse r reads fin Hb Hal), Hwire.
  unfold Spec.streamed, Spec.delivered, three_frames.
  change (jsq "data: {'a':1}" ++ [LF] ++ jsq "data: {'a':2}" ++ [LF]
            ++ js "data: [DONE]" ++ [LF])
    with (jsq "data: {'a':1}" ++ LF :: jsq "data: {'a':2}" ++ LF
            :: js "data: [DONE]" ++ LF :: []).
  rewrite <- !app_assoc. simpl ([LF] ++ _).
  repeat (rewrite <- app_comm_cons, <- app_assoc).
  rewrite !StringFacts.split_app_sep.
  change (split LF (jsq "data: {'a':1}")) with [js "data: " ++ jsq "{'a':1}"].
  change (split LF (jsq "data: {'a':2}")) with [js "data: " ++ jsq "{'a':2}"].
  change (split LF (js "data: [DONE]")) with [js "data: " ++ js "[DONE]"].
  cbn [app Spec.frames]. 
  rewrite !StringFacts.startsWith_app.
  change 6 with (length (js "data: ")).
  rewrite !StringFacts.slice_app.
  cbn [Spec.deliver]. rewrite H1, H2.
  reflexivity.
Qed.

(** Two reads, the first of the two data frames, the second of the sentinel
    frame followed by one more data frame: that last frame is not
    delivered. *)
Lemma streamMessage_three_frames_witness :
  let reads := [jsq "data: {'a':1}" ++ [LF] ++ jsq "data: {'a':2}" ++ [LF];
                js "data: [DONE]" ++ [LF] ++ jsq "data: {'a':3}" ++ [LF]] in
  let r := streaming true 200 (reads, Done) in
  Sample.JSON_parse (jsq "{'a':1}") = Some (a_is 1)
  /\ Sample.JSON_parse (jsq "{'a':2}") = Some (a_is 2)
  /\ body r = Some (reads, Done)
  /\ forallb Spec.ends_line (removelast reads) = true
  /\ concat reads = three_frames ++ (jsq "data: {'a':3}" ++ [LF])
  /\ streamMessage Sample.JSON_parse (FetchResolves r)
     = [onChunk (a_is 1); onChunk (a_is 2); onComplete].
Proof.
  intros reads r.
  assert (H1 : Sample.JSON_parse (jsq "{'a':1}") = Some (a_is 1))
    by reflexivity.
  assert (H2 : Sample.JSON_parse (jsq "{'a':2}") = Some (a_is 2))
    by reflexivity.
  refine (conj H1 (conj H2 (conj eq_refl (conj eq_refl (conj eq_refl _))))).
  exact (@streamMessage_three_frames Sample.JSON_parse r reads Done
           (jsq "data: {'a':3}" ++ [LF]) H1 H2 eq_refl eq_refl eq_refl).
Defined.

(** The three frames delivered in two reads cut inside the marker of the
    first frame.  Neither half of that frame is a line
    that carries the marker, so [{a:1}] is never delivered. *)
Lemma streamMessage_three_frames_split_read :
  let reads := [js "da";
                jsq "ta: {'a':1}" ++ [LF] ++ jsq "data: {'a':2}" ++ [LF]
                  ++ js "data: [DONE]" ++ [LF]] in
  concat reads = three_frames
  /\ Sample.JSON_parse (jsq "{'a':1}") = Some (a_is 1)
  /\ Sample.JSON_parse (jsq "{'a':2}") = Some (a_is 2)
  /\ streamMessage Sample.JSON_parse
       (FetchResolves (streaming true 200 (reads, Done)))
     = [onChunk (a_is 2); onComplete]
  /\ streamMessage Sample.JSON_parse
       (FetchResolves (streaming true 200 (reads, Done)))
     <> [onChunk (a_is 1); onChunk (a_is 2); onComplete].
Proof.
  cbv zeta. repeat split; try reflexivity.
  vm_compute. discriminate.
Qed.

(** C2: a response with a non-OK status is read like any other.  On the
    response [500] whose body is [{"detail":"boom"}], [streamMessage]
    invokes [onComplete] and never [onError], where [request] rejects with
    [Error("boom")] on the same response. *)
Theorem streamMessage_non_ok_response_completes :
  let r := mkResponse false 500
             (Some (JObject [(js "detail", JString (js "boom"))]))
             (Some ([jsq "{'detail':'boom'}"], Done)) in
  streamMessage Sample.JSON_parse (FetchResolves r) = [onComplete]
  /\ snd (request Sample.String_of (js "/chat/message") (FetchResolves r))
     = Rejected (Error (js "boom")).
Proof. cbv zeta. split; reflexivity. Qed.

(** C3 (as amended): each read is cut into lines on its own and the lines
    of the reads are handled in the order of the reads: the callbacks are
    those of delivering, in order, the lines of the successive reads, so
    the frames are delivered in the order they have on the wire.  No line
    is carried from one read to the next: the two parts of a line cut by a
    read boundary are two lines.  When every read but the last ends a
    line, the callbacks are those of the whole decoded text cut into
    lines. *)
Theorem streamMessage_delivers_in_wire_order
  (JSON_parse : jsstring -> option JSValue) (r : Response)
  (reads : list jsstring) (fin : ReadEnd) :
  body r = Some (reads, fin) ->
  streamMessage JSON_parse (FetchResolves r)
  = Spec.delivered JSON_parse (flat_map (split LF) reads) fin
  /\ (forallb Spec.ends_line (removelast reads) = true ->
      streamMessage JSON_parse (FetchResolves r)
      = Spec.streamed JSON_parse (concat reads) fin).
Proof.
  intros Hb. split.
  - now apply StreamFacts.streamMessage_lines.
  - now apply StreamFacts.streamMessage_aligned.
Qed.

Lemma streamMessage_delivers_in_wire_order_witness :
  let reads := [jsq "data: {'a':1}" ++ [LF]; [];
                jsq "data: {'a':2}" ++ [LF] ++ js "data: {" ++ [LF];
                jsq "data: {'a':3}"] in
  let r := streaming true 200 (reads, Done) in
  body r = Some (reads, Done)
  /\ forallb Spec.ends_line (removelast reads) = true
  /\ streamMessage Sample.JSON_parse (FetchResolves r)
     = Spec.streamed Sample.JSON_parse (concat reads) Done
  /\ Spec.streamed Sample.JSON_parse (concat reads) Done
     = [onChunk (a_is 1); onChunk (a_is 2); onChunk (a_is 3); onComplete].
Proof.
  intros reads r. refine (conj eq_refl (conj eq_refl (conj _ eq_refl))).
  exact (proj2 (@streamMessage_delivers_in_wire_order Sample.JSON_parse r
                  reads Done eq_refl) eq_refl).
Defined.

(** The frame [data: {"a":1}] cut after [{"a"] and delivered in two reads
    is not assembled.  The first read is a frame whose payload does not
    parse, the second is a line without the marker; [onChunk] is not
    invoked, where the decoded text as a whole holds the frame. *)
Lemma streamMessage_frame_across_reads :
  let reads := [jsq "data: {'a'"; jsq ":1}" ++ [LF]] in
  let calls :=
    streamMessage Sample.JSON_parse
      (FetchResolves (streaming true 200 (reads, Done))) in
  concat reads = jsq "data: {'a':1}" ++ [LF]
  /\ calls = [onComplete]
  /\ Spec.streamed Sample.JSON_parse (concat reads) Done
     = [onChunk (a_is 1); onComplete]
  /\ calls <> Spec.streamed Sample.JSON_parse (concat reads) Done.
Proof.
  cbv zeta. repeat split; try reflexivity.
  vm_compute. discriminate.
Qed.



(** ** Properties of the document list *)

Module DocFacts.
Import JS App.

Lemma merge_length (status : JobStatus) (prev : list Doc) :
  length (merge status prev) = length prev.
Proof. apply length_map. Qed.

(** The poll merge rewrites no identifier. *)
Lemma merge_ids (status : JobStatus) (prev : list Doc) :
  map id (merge status prev) = map id prev.
Proof.
  unfold merge. rewrite map_map. apply map_ext.
  intros doc. now destruct (find_by_id status doc).
Qed.

(** [find] returns the first entry that passes the test. *)
Lemma find_first {A : Type} (f : A -> bool) (l : list A) (x : A) :
  find f l = Some x ->
  exists l1 l2, l = l1 ++ x :: l2 /\ f x = true
                /\ forall y, In y l1 -> f y = false.
Proof.
  induction l as [|a l IH]; simpl; [discriminate|].
  destruct (f a) eqn:E.
  - intros [= ->]. exists [], l. repeat split; auto. intros y [].
  - intros H. destruct (IH H) as (l1 & l2 & -> & Hx & Hl1).
    exists (a :: l1), l2. repeat split; auto.
    intros y [<-|Hy]; auto.
Qed.

End DocFacts.


(** C5: uploading the same filename twice leaves two entries with one id.
    Whatever the clock reads and whatever identifiers the server assigns,
    after a drop of [a.pdf], its upload, a second drop of [a.pdf] and its
    upload, both entries carry the identifier of the second upload: the
    reconciliation matches every entry of that filename, the one of the
    first upload included. *)
Theorem same_filename_twice_shares_id
  (clock1 clock2 : nat -> N) (size1 size2 : N) (job1 job2 d1 d2 : jsstring) :
  let a := js "a.pdf" in
  let ops :=
    [Drop clock1 [mkFile a size1];
     Uploaded (Returns (mkUploadResponse job1 [mkUploadedDoc a d1]));
     Drop clock2 [mkFile a size2];
     Uploaded (Returns (mkUploadResponse job2 [mkUploadedDoc a d2]))] in
  map id (documents (run ops (session (js "s")))) = [d2; d2]
  /\ ~ NoDup (map id (documents (run ops (session (js "s"))))).
Proof.
  intros a ops.
  assert (H : map id (documents (run ops (session (js "s")))) = [d2; d2])
    by reflexivity.
  split; [exact H|].
  rewrite H. intros Hnd. inversion Hnd as [|x l Hin _]; subst.
  apply Hin. now left.
Qed.

(** C9: a poll that returns replaces the document list of the component
    by its merge with the response.  The list keeps its length and every
    entry's [id], [filename] and [size]; an entry whose id is the
    [document_id] of some entry of the response takes the status of the
    first such entry; an entry whose id is no [document_id] of the response
    is unchanged.  A poll that throws leaves the list as it is.  So the
    list [{id:"x", status:"processing"}] polled with the response
    [{document_id:"x", status:"completed"}] has status ["completed"]. *)
Theorem merge_updates_matching_documents
  (status : JobStatus) (st : State) :
  let prev := documents st in
  let next := documents (fst (fst (poll_settle (Returns status) st))) in
  next = merge status prev
  /\ length next = length prev
  /\ Forall2
       (fun doc doc' =>
          id doc' = id doc /\ filename doc' = filename doc
          /\ size doc' = size doc
          /\ ((exists l1 d l2,
                  job_documents status = l1 ++ d :: l2
                  /\ document_id d = id doc
                  /\ (forall d', In d' l1 -> document_id d' <> id doc)
                  /\ App.status doc' = doc_status d)
              \/ ((forall d, In d (job_documents status) ->
                             document_id d <> id doc)
                  /\ doc' = doc)))
       prev next
  /\ documents (fst (fst (poll_settle Throws st))) = prev
  /\ (forall (fname : jsstring) (sz : N),
        prev = [mkDoc (js "x") fname sz (js "processing")] ->
        job_documents status = [mkDocStatus (js "x") (js "completed")] ->
        next = [mkDoc (js "x") fname sz (js "completed")]).
Proof.
  intros prev next.
  assert (Hnext : next = merge status prev).
  { unfold next, poll_settle. now destruct (not_terminal status). }
  split; [exact Hnext|]. rewrite Hnext. clear next Hnext.
  split; [apply DocFacts.merge_length|].
  split; [|split; [reflexivity|]].
  - generalize prev as docs. clear prev.
    induction docs as [|doc docs IH]; [constructor|].
    cbn [merge map]. constructor; [|exact IH].
    unfold find_by_id. destruct (find _ _) as [d|] eqn:E; cbn.
    + repeat split. left.
      destruct (DocFacts.find_first _ _ _ E) as (l1 & l2 & Hl & Hd & Hl1).
      exists l1, d, l2. repeat split; auto.
      * now apply StringFacts.str_eqb_eq.
      * intros d' Hin Heq. specialize (Hl1 d' Hin).
        apply StringFacts.str_eqb_eq in Heq. congruence.
    + repeat split. right. split; [|reflexivity].
      intros d Hin Heq. apply StringFacts.str_eqb_eq in Heq.
      pose proof (find_none _ _ E d Hin) as Hf. cbv beta in Hf. congruence.
  - intros fname sz Hprev Hdocs. rewrite Hprev.
    unfold merge, find_by_id. rewrite Hdocs. reflexivity.
Qed.

(** ** Properties of the chat *)

Module ChatFacts.
Import JS App.

(** With a text that trims to something, a session and no send in flight,
    [sendMessage] goes as far as its [await]. *)
Lemma sendMessage_start_accepts (st : State) :
  trim (inputMessage st) <> [] ->
  falsy (sessionId st) = false ->
  isLoading st = false ->
  sendMessage_start st =
  Some (setError None
          (setIsLoading true
             (setMessages
                (fun prev =>
                   prev ++ [mkMessage (js "user") (trim (inputMessage st))
                              None])
                (setInputMessage [] st))),
        (sessionId st, trim (inputMessage st))).
Proof.
  intros Htext Hsid Hload. unfold sendMessage_start.
  rewrite Hsid, Hload.
  destruct (trim (inputMessage st)) as [|c t] eqn:E; [contradiction|].
  reflexivity.
Qed.

Lemma sendMessage_settle_clears_loading (reply : Outcome ChatResponse)
  (st : State) :
  isLoading (sendMessage_settle reply st) = false.
Proof. now destruct reply. Qed.

End ChatFacts.

(** C6: with a text that trims to something, a session and no send in
    flight, [sendMessage] appends the user message, with the trimmed text,
    before it issues the call with that text; and when the call returns,
    in any state whose history is still the one [sendMessage] left, it
    appends the assistant message made of the answer and the references.
    The history is then the prior one followed by these two entries, in
    this order. *)
Theorem sendMessage_success_history (st : State) (response : ChatResponse) :
  trim (inputMessage st) <> [] ->
  falsy (sessionId st) = false ->
  isLoading st = false ->
  let userMessage := mkMessage (js "user") (trim (inputMessage st)) None in
  let assistantMessage :=
    mkMessage (js "assistant") (answer response)
              (Some (chat_references response)) in
  exists st1,
    sendMessage_start st
    = Some (st1, (sessionId st, trim (inputMessage st)))
    /\ messages st1 = messages st ++ [userMessage]
    /\ forall st2,
         messages st2 = messages st1 ->
         messages (sendMessage_settle (Returns response) st2)
         = messages st ++ [userMessage; assistantMessage].
Proof.
  intros Htext Hsid Hload userMessage assistantMessage.
  eexists. split; [apply ChatFacts.sendMessage_start_accepts; assumption|].
  split; [reflexivity|].
  intros st2 H2. cbn. rewrite H2. cbn.
  now rewrite <- app_assoc.
Qed.

Lemma sendMessage_success_history_witness :
  let st := mkState (Some (js "s")) [] [mkMessage (js "user") (js "q") None]
                    (js "  hi ") false None None false in
  let response := mkChatResponse (js "hello") [mkReference (js "a.pdf") 3] in
  trim (inputMessage st) <> []
  /\ falsy (sessionId st) = false
  /\ isLoading st = false
  /\ exists st1,
       sendMessage_start st = Some (st1, (Some (js "s"), js "hi"))
       /\ messages (sendMessage_settle (Returns response) st1)
          = [mkMessage (js "user") (js "q") None;
             mkMessage (js "user") (js "hi") None;
             mkMessage (js "assistant") (js "hello")
                       (Some [mkReference (js "a.pdf") 3])].
Proof.
  intros st response.
  assert (Htext : trim (inputMessage st) <> [])
    by (vm_compute; discriminate).
  refine (conj Htext (conj eq_refl (conj eq_refl _))).
  destruct (sendMessage_success_history st response Htext eq_refl eq_refl)
    as (st1 & Hstart & _ & Hsettle).
  exists st1. split; [exact Hstart|].
  exact (Hsettle st1 eq_refl).
Defined.

(** C7: when the chat call fails, in any state whose history is still the
    one [sendMessage] left, the error is set to the fixed text, the
    history is the prior one followed by the user message only, and the
    loading flag, set before the call, is cleared; it is cleared whatever
    the outcome of the call. *)
Theorem sendMessage_failure_state (st : State) :
  trim (inputMessage st) <> [] ->
  falsy (sessionId st) = false ->
  isLoading st = false ->
  exists st1 call,
    sendMessage_start st = Some (st1, call)
    /\ isLoading st1 = true
    /\ forall st2,
         messages st2 = messages st1 ->
         error (sendMessage_settle Throws st2)
         = Some (js "Error al obtener respuesta")
         /\ messages (sendMessage_settle Throws st2)
            = messages st
                ++ [mkMessage (js "user") (trim (inputMessage st)) None]
         /\ isLoading (sendMessage_settle Throws st2) = false
         /\ forall reply, isLoading (sendMessage_settle reply st2) = false.
Proof.
  intros Htext Hsid Hload.
  do 2 eexists.
  split; [apply ChatFacts.sendMessage_start_accepts; assumption|].
  split; [reflexivity|].
  intros st2 H2.
  refine (conj eq_refl (conj _ (conj eq_refl _))).
  - cbn. exact H2.
  - intros reply. apply ChatFacts.sendMessage_settle_clears_loading.
Qed.

Lemma sendMessage_failure_state_witness :
  let st := mkState (Some (js "s")) [] [] (js "hi") false None None false in
  trim (inputMessage st) <> []
  /\ falsy (sessionId st) = false
  /\ isLoading st = false
  /\ exists st1 call,
       sendMessage_start st = Some (st1, call)
       /\ error (sendMessage_settle Throws st1)
          = Some (js "Error al obtener respuesta")
       /\ messages (sendMessage_settle Throws st1)
          = [mkMessage (js "user") (js "hi") None]
       /\ isLoading (sendMessage_settle Throws st1) = false.
Proof.
  intros st.
  assert (Htext : trim (inputMessage st) <> [])
    by (vm_compute; discriminate).
  refine (conj Htext (conj eq_refl (conj eq_refl _))).
  destruct (sendMessage_failure_state st Htext eq_refl eq_refl)
    as (st1 & call & Hstart & _ & Hsettle).
  exists st1, call. split; [exact Hstart|].
  destruct (Hsettle st1 eq_refl) as (He & Hm & Hl & _).
  exact (conj He (conj Hm Hl)).
Defined.

(** ** Properties of the polling loop *)

Module PollFacts.
Import JS App.

Lemma not_terminal_true (s : JobStatus) :
  not_terminal s = true <->
  job_status s <> js "completed" /\ job_status s <> js "failed".
Proof.
  unfold not_terminal. rewrite andb_true_iff, !negb_true_iff.
  split; intros [H1 H2]; split.
  - intros E. rewrite E in H1. discriminate.
  - intros E. rewrite E in H2. discriminate.
  - now apply StringFacts.str_eqb_neq.
  - now apply StringFacts.str_eqb_neq.
Qed.

Lemma not_terminal_false (s : JobStatus) :
  not_terminal s = false <->
  job_status s = js "completed" \/ job_status s = js "failed".
Proof.
  unfold not_terminal. rewrite andb_false_iff, !negb_false_iff.
  now rewrite !StringFacts.str_eqb_eq.
Qed.

(** A run that sees a status that is not terminal hands [poll] to the
    timer with a delay of 2000 ms. *)
Lemma poll_settle_reschedules (s : JobStatus) (st : State) :
  not_terminal s = true ->
  exists st', poll_settle (Returns s) st = (st', [setTimeout_poll 2000], true).
Proof. intros H. unfold poll_settle. rewrite H. eexists; reflexivity. Qed.

Lemma poll_settle_stops (fetched : Outcome JobStatus) (st : State) :
  match fetched with
  | Returns s => not_terminal s = false
  | Throws => True
  end ->
  exists st',
    poll_settle fetched st
    = (st', match fetched with Returns _ => [] | Throws => [console_error] end,
       false).
Proof.
  destruct fetched as [s|]; intros H; unfold poll_settle.
  - rewrite H. eexists; reflexivity.
  - eexists; reflexivity.
Qed.

End PollFacts.

(** C8: a loop started against [jobId] requests the status at each run.
    While the answers carry a status that is neither ["completed"] nor
    ["failed"], each run is followed by a [setTimeout] of 2000 ms and the
    next run.  At the first answer that carries one of these two, or at the
    first request that throws, the loop has issued one request per answer
    so far and issues no other, whatever the server would answer next; the
    throw is logged. *)
Theorem pollProcessingStatus_requests
  (jobId : jsstring) (pending : list JobStatus) (last : Outcome JobStatus)
  (never : list (Outcome JobStatus)) (st : State) :
  Forall (fun s => job_status s <> js "completed"
                   /\ job_status s <> js "failed") pending ->
  (last = Throws
   \/ exists s, last = Returns s
                /\ (job_status s = js "completed"
                    \/ job_status s = js "failed")) ->
  snd (pollProcessingStatus jobId (map Returns pending) st)
  = flat_map (fun _ => [getProcessingStatus jobId; setTimeout_poll 2000])
             pending
  /\ snd (pollProcessingStatus jobId (map Returns pending ++ last :: never)
            st)
     = flat_map (fun _ => [getProcessingStatus jobId; setTimeout_poll 2000])
                pending
       ++ getProcessingStatus jobId
          :: match last with
             | Returns _ => []
             | Throws => [console_error]
             end.
Proof.
  intros Hpending Hlast.
  assert (Hstop : match last with
                  | Returns s => not_terminal s = false
                  | Throws => True
                  end).
  { destruct Hlast as [->|(s & -> & Hs)]; [exact I|].
    now apply PollFacts.not_terminal_false. }
  clear Hlast. revert st.
  induction Hpending as [|s pending Hs _ IH]; intros st.
  - split; [reflexivity|]. cbn [map app flat_map pollProcessingStatus].
    destruct (PollFacts.poll_settle_stops last st Hstop) as [st' ->].
    reflexivity.
  - apply PollFacts.not_terminal_true in Hs.
    cbn [map app flat_map pollProcessingStatus].
    destruct (PollFacts.poll_settle_reschedules s st Hs) as [st' ->].
    destruct (IH st') as [IH1 IH2].
    destruct (pollProcessingStatus jobId (map Returns pending) st')
      as [sa ea].
    destruct (pollProcessingStatus jobId
                (map Returns pending ++ last :: never) st') as [sb eb].
    cbn [snd] in *. now rewrite IH1, IH2.
Qed.

Lemma pollProcessingStatus_requests_witness :
  let processing := mkJobStatus (js "processing") [] in
  let completed := mkJobStatus (js "completed") [] in
  let j := js "job" in
  Forall (fun s => job_status s <> js "completed"
                   /\ job_status s <> js "failed") [processing; processing]
  /\ (Returns completed = Throws
      \/ exists s, Returns completed = Returns s
                   /\ (job_status s = js "completed"
                       \/ job_status s = js "failed"))
  /\ snd (pollProcessingStatus j
            (map Returns [processing; processing]
               ++ Returns completed :: [Returns processing; Throws])
            (session (js "s")))
     = [getProcessingStatus j; setTimeout_poll 2000;
        getProcessingStatus j; setTimeout_poll 2000;
        getProcessingStatus j].
Proof.
  intros processing completed j.
  assert (Hp : Forall (fun s => job_status s <> js "completed"
                                /\ job_status s <> js "failed")
                 [processing; processing])
    by (repeat constructor; vm_compute; discriminate).
  assert (Hl : Returns completed = Throws
               \/ exists s, Returns completed = Returns s
                            /\ (job_status s = js "completed"
                                \/ job_status s = js "failed"))
    by (right; exists completed; split; [reflexivity|left; reflexivity]).
  refine (conj Hp (conj Hl _)).
  exact (proj2 (pollProcessingStatus_requests j [processing; processing]
                  (Returns completed) [Returns processing; Throws]
                  (session (js "s")) Hp Hl)).
Defined.

(** ** Properties of the transport client *)




(** ** Further properties of the streaming consumer *)

Module StreamMore.
Import JS Api StringFacts.

Section Host.

Variable JSON_parse : jsstring -> option JSValue.

#[local] Arguments startsWith : simpl never.
#[local] Arguments slice : simpl never.
#[local] Arguments js : simpl never.
#[local] Arguments split : simpl never.

#[local] Abbreviation process_lines := (process_lines JSON_parse).

Lemma startsWith_inv (s p : jsstring) :
  startsWith s p = true -> s = p ++ slice (length p) s.
Proof.
  revert s. induction p as [|x p IH]; intros s H; [reflexivity|].
  destruct s as [|y s]; [discriminate|].
  cbn in H. apply andb_true_iff in H as [Hxy H].
  apply N.eqb_eq in Hxy; subst y. cbn. f_equal. now apply IH.
Qed.

(** The only line the loop returns at. *)
Lemma sentinel_line (line : jsstring) :
  startsWith line (js "data: ") = true ->
  str_eqb (slice 6 line) (js "[DONE]") = true ->
  line = js "data: [DONE]".
Proof.
  intros Hp Hd. apply str_eqb_eq in Hd.
  rewrite (startsWith_inv _ _ Hp).
  change (length (js "data: ")) with 6. now rewrite Hd.
Qed.

Lemma process_lines_sentinel (lines : list jsstring) :
  In (js "data: [DONE]") lines -> snd (process_lines lines) = true.
Proof.
  induction lines as [|line rest IH]; [intros []|].
  intros [->|Hin]; [reflexivity|].
  cbn [Api.process_lines].
  destruct (startsWith line (js "data: ")); [|auto].
  destruct (str_eqb _ _); [reflexivity|].
  destruct (JSON_parse _); [|auto].
  specialize (IH Hin). now destruct (process_lines rest).
Qed.

(** Without a sentinel line, every frame that parses is handed to
    [onChunk], in order, and the loop does not return. *)
Lemma process_lines_no_sentinel (lines : list jsstring) :
  ~ In (js "data: [DONE]") lines ->
  process_lines lines
  = (flat_map (fun data => match JSON_parse data with
                           | Some parsed => [onChunk parsed]
                           | None => []
                           end) (Spec.frames lines),
     false).
Proof.
  induction lines as [|line rest IH]; [reflexivity|].
  intros Hno. cbn [Api.process_lines Spec.frames].
  assert (Hrest : ~ In (js "data: [DONE]") rest)
    by (intros H; apply Hno; now right).
  specialize (IH Hrest).
  destruct (startsWith line (js "data: ")) eqn:Hp; [|exact IH].
  destruct (str_eqb _ _) eqn:Hd.
  - exfalso. apply Hno. left. now apply sentinel_line.
  - cbn [flat_map]. rewrite IH. now destruct (JSON_parse _).
Qed.

Lemma process_lines_returned_app (l1 l2 : list jsstring) :
  snd (process_lines l1) = true ->
  process_lines (l1 ++ l2) = process_lines l1.
Proof.
  intros H. rewrite StreamFacts.process_lines_app.
  destruct (process_lines l1) as [c [|]]; [reflexivity|discriminate].
Qed.

End Host.

End StreamMore.

(** X1: for callbacks that return and a body whose reads come to an end
    (the body ends or a read fails), which is what a [Stream] and a
    [Callback] of this model stand for: whatever [fetch] settles to and
    whatever the reads hold, [streamMessage] invokes [onChunk] some number
    of times and then one callback more, [onComplete] or [onError]; the
    sentinel followed by the end of the body does not complete twice, and
    a read that fails after chunks were delivered gives [onError] alone.
    A callback that throws and a body that never ends are outside this
    statement. *)
Theorem streamMessage_one_final_callback
  (JSON_parse : jsstring -> option JSValue) (f : FetchOutcome) :
  exists parsed final,
    streamMessage JSON_parse f = map onChunk parsed ++ [final]
    /\ (final = onComplete \/ exists e, final = onError e).
Proof. apply StreamFacts.streamMessage_shape. Qed.

(** X2: once a read holds the line [data: [DONE]], nothing that comes after
    that read is looked at: the callbacks are the same whatever the later
    reads are and however they end (a failing read included), and they end
    with [onComplete]. *)
Theorem streamMessage_stops_at_sentinel
  (JSON_parse : jsstring -> option JSValue) (o : bool) (st : N)
  (j : option JSValue) (earlier later later' : list jsstring)
  (chunk : jsstring) (fin fin' : ReadEnd) :
  In (js "data: [DONE]") (split LF chunk) ->
  streamMessage JSON_parse
    (FetchResolves (mkResponse o st j (Some (earlier ++ chunk :: later, fin))))
  = streamMessage JSON_parse
      (FetchResolves
         (mkResponse o st j (Some (earlier ++ chunk :: later', fin'))))
  /\ exists parsed,
       streamMessage JSON_parse
         (FetchResolves
            (mkResponse o st j (Some (earlier ++ chunk :: later, fin))))
       = map onChunk parsed ++ [onComplete].
Proof.
  intros Hin.
  assert (Hlines : forall rest,
             flat_map (split LF) (earlier ++ chunk :: rest)
             = (flat_map (split LF) earlier ++ split LF chunk)
                 ++ flat_map (split LF) rest).
  { intros rest. rewrite flat_map_app. cbn [flat_map].
    now rewrite app_assoc. }
  assert (Hret : snd (process_lines JSON_parse
                        (flat_map (split LF) earlier ++ split LF chunk))
                 = true).
  { apply StreamMore.process_lines_sentinel, in_or_app. now right. }
  assert (Hcalls : forall rest end_,
             streamMessage JSON_parse
               (FetchResolves
                  (mkResponse o st j (Some (earlier ++ chunk :: rest, end_))))
             = fst (process_lines JSON_parse
                      (flat_map (split LF) earlier ++ split LF chunk))).
  { intros rest end_. unfold streamMessage, processStream.
    cbn [body fst snd].
    rewrite StreamFacts.processStream_reads_lines, Hlines.
    rewrite (StreamMore.process_lines_returned_app _ _ _ Hret).
    destruct (process_lines JSON_parse _) as [c [|]];
      [reflexivity|discriminate]. }
  split; [now rewrite !Hcalls|].
  rewrite Hcalls.
  destruct (StreamFacts.process_lines_shape JSON_parse
              (flat_map (split LF) earlier ++ split LF chunk))
    as (parsed & returned & E).
  rewrite E in Hret |- *. cbn [snd] in Hret. subst returned.
  now exists parsed.
Qed.

Lemma streamMessage_stops_at_sentinel_witness :
  let chunk := jsq "data: {'a':1}" ++ [LF] ++ js "data: [DONE]" ++ [LF] in
  In (js "data: [DONE]") (split LF chunk)
  /\ streamMessage Sample.JSON_parse
       (FetchResolves
          (mkResponse true 200 None
             (Some ([] ++ chunk :: [jsq "data: {'a':2}" ++ [LF]],
                    ReadRejects (Host ReadFailure)))))
     = streamMessage Sample.JSON_parse
         (FetchResolves (mkResponse true 200 None
                           (Some ([] ++ chunk :: [], Done)))).
Proof.
  intros chunk.
  assert (Hin : In (js "data: [DONE]") (split LF chunk))
    by (vm_compute; auto).
  refine (conj Hin _).
  exact (proj1 (streamMessage_stops_at_sentinel Sample.JSON_parse true 200
                  None [] [jsq "data: {'a':2}" ++ [LF]] [] chunk
                  (ReadRejects (Host ReadFailure)) Done Hin)).
Defined.

(** X3: when no read holds the line [data: [DONE]], every frame whose
    payload parses is handed to [onChunk], once and in the order of the
    wire, frames that do not parse and lines without the marker give
    nothing, and the end of the reads gives the last callback:
    [onComplete] when the body ends, [onError] with the error of the read
    when a read fails.  The chunks delivered before a failing read are not
    taken back. *)
Theorem streamMessage_without_sentinel
  (JSON_parse : jsstring -> option JSValue) (r : Response)
  (reads : list jsstring) (fin : ReadEnd) :
  body r = Some (reads, fin) ->
  ~ In (js "data: [DONE]") (flat_map (split LF) reads) ->
  streamMessage JSON_parse (FetchResolves r)
  = flat_map (fun data => match JSON_parse data with
                          | Some parsed => [onChunk parsed]
                          | None => []
                          end)
             (Spec.frames (flat_map (split LF) reads))
    ++ [match fin with
        | Done => onComplete
        | ReadRejects e => onError e
        end].
Proof.
  intros Hb Hno. unfold streamMessage, processStream. rewrite Hb.
  cbn [fst snd].
  rewrite StreamFacts.processStream_reads_lines.
  rewrite (StreamMore.process_lines_no_sentinel JSON_parse _ Hno).
  now destruct fin.
Qed.

Lemma streamMessage_without_sentinel_witness :
  let reads := [jsq "data: {'a':1}" ++ [LF] ++ js ": ping" ++ [LF];
                js "data: {" ++ [LF] ++ jsq "data: {'a':2}" ++ [LF]] in
  let r := streaming true 200 (reads, ReadRejects (Host ReadFailure)) in
  body r = Some (reads, ReadRejects (Host ReadFailure))
  /\ ~ In (js "data: [DONE]") (flat_map (split LF) reads)
  /\ streamMessage Sample.JSON_parse (FetchResolves r)
     = [onChunk (a_is 1); onChunk (a_is 2); onError (Host ReadFailure)].
Proof.
  intros reads r.
  assert (Hno : ~ In (js "data: [DONE]") (flat_map (split LF) reads))
    by (vm_compute; intuition discriminate).
  refine (conj eq_refl (conj Hno _)).
  exact (streamMessage_without_sentinel Sample.JSON_parse r reads
           (ReadRejects (Host ReadFailure)) eq_refl Hno).
Defined.

(** X4: two bodies with the same decoded text and the same end, each
    delivered in reads that end a line (the last read excepted), give the
    same callbacks: where the reads are cut does not matter as long as no
    line is cut. *)
Theorem streamMessage_same_text_same_callbacks
  (JSON_parse : jsstring -> option JSValue) (r1 r2 : Response)
  (reads1 reads2 : list jsstring) (fin : ReadEnd) :
  body r1 = Some (reads1, fin) ->
  body r2 = Some (reads2, fin) ->
  forallb Spec.ends_line (removelast reads1) = true ->
  forallb Spec.ends_line (removelast reads2) = true ->
  concat reads1 = concat reads2 ->
  streamMessage JSON_parse (FetchResolves r1)
  = streamMessage JSON_parse (FetchResolves r2).
Proof.
  intros H1 H2 A1 A2 E.
  rewrite (StreamFacts.streamMessage_aligned JSON_parse r1 reads1 fin H1 A1).
  rewrite (StreamFacts.streamMessage_aligned JSON_parse r2 reads2 fin H2 A2).
  now rewrite E.
Qed.

Lemma streamMessage_same_text_same_callbacks_witness :
  let one := [jsq "data: {'a':1}" ++ [LF] ++ jsq "data: {'a':2}" ++ [LF]] in
  let two := [jsq "data: {'a':1}" ++ [LF]; jsq "data: {'a':2}" ++ [LF]] in
  body (streaming true 200 (one, Done)) = Some (one, Done)
  /\ body (streaming true 200 (two, Done)) = Some (two, Done)
  /\ forallb Spec.ends_line (removelast one) = true
  /\ forallb Spec.ends_line (removelast two) = true
  /\ concat one = concat two
  /\ streamMessage Sample.JSON_parse
       (FetchResolves (streaming true 200 (one, Done)))
     = streamMessage Sample.JSON_parse
         (FetchResolves (streaming true 200 (two, Done))).
Proof.
  intros one two.
  refine (conj eq_refl (conj eq_refl (conj eq_refl (conj eq_refl
            (conj eq_refl _))))).
  exact (streamMessage_same_text_same_callbacks Sample.JSON_parse
           (streaming true 200 (one, Done)) (streaming true 200 (two, Done))
           one two Done eq_refl eq_refl eq_refl eq_refl eq_refl).
Defined.

(** ** Further properties of the transport client *)

Module TransportFacts.
Import JS Api.

Section Host.

Variable String_of : JSValue -> option jsstring.

Lemma new_Error_not_null (d : JSValue) :
  new_Error String_of d <> Host PropertyOfNull.
Proof.
  destruct d; cbn; try discriminate;
    destruct (String_of _); discriminate.
Qed.

(** What is thrown for a body that is not [null] is not the TypeError of a
    property read. *)
Lemma throw_detail_or_null (error : JSValue) (fallback : jsstring) :
  throw_detail_or String_of error fallback = Host PropertyOfNull
  <-> error = JNull.
Proof.
  split; [|now intros ->].
  unfold throw_detail_or.
  destruct error as [| | | | |members]; cbn; try discriminate; auto.
  destruct (lookup _ members) as [d|]; [|discriminate].
  destruct (truthy d); [|discriminate].
  intros H. now apply new_Error_not_null in H.
Qed.

End Host.

Lemma lookup_app (k : jsstring) (a b : list (jsstring * JSValue)) :
  lookup k (a ++ b)
  = match lookup k b with
    | Some v => Some v
    | None => lookup k a
    end.
Proof.
  induction a as [|[k' v] a IH]; cbn.
  - now destruct (lookup k b).
  - rewrite IH. now destruct (lookup k b).
Qed.

End TransportFacts.

(** X5: [request] fulfils exactly when [fetch] resolves with an OK response
    whose body parses, and then with the parsed body; so does
    [uploadDocuments].  A response that is not OK is never turned into a
    value, whatever its body. *)
Theorem request_fulfils_on_ok_json_only
  (String_of : JSValue -> option jsstring) (endpoint : jsstring)
  (f : FetchOutcome) (v : JSValue) :
  (snd (request String_of endpoint f) = Fulfilled v
   <-> exists r, f = FetchResolves r /\ ok r = true /\ json r = Some v)
  /\ (uploadDocuments String_of f = Fulfilled v
      <-> exists r, f = FetchResolves r /\ ok r = true /\ json r = Some v).
Proof.
  unfold request, uploadDocuments.
  destruct f as [e|r]; cbn [snd].
  - split; split; try discriminate; intros (r & H & _); discriminate.
  - destruct (ok r) eqn:Hok; cbn [negb].
    + destruct (json r) as [w|] eqn:Hj; cbn [snd].
      * split; split.
        -- intros [= ->]. now exists r.
        -- intros (r' & [= <-] & _ & Hv). congruence.
        -- intros [= ->]. now exists r.
        -- intros (r' & [= <-] & _ & Hv). congruence.
      * split; split; try discriminate;
          intros (r' & [= <-] & _ & Hv); congruence.
    + cbn [snd]. split; split; try discriminate;
        intros (r' & [= <-] & Hok' & _); congruence.
Qed.

(** X6: [request] calls [console.error] exactly when [fetch] rejects or the
    response is not OK, once, with its endpoint and the very error it
    rejects with.  The rejection for an OK response whose body does not
    parse is not logged. *)
Theorem request_logs_its_rejections
  (String_of : JSValue -> option jsstring) (endpoint : jsstring)
  (f : FetchOutcome) :
  (fst (request String_of endpoint f) = []
   <-> exists r, f = FetchResolves r /\ ok r = true)
  /\ (fst (request String_of endpoint f) <> [] ->
      exists e, fst (request String_of endpoint f) = [(endpoint, e)]
                /\ snd (request String_of endpoint f) = Rejected e)
  /\ (forall r, f = FetchResolves r -> ok r = true -> json r = None ->
      request String_of endpoint f = ([], Rejected (Host BodyNotJSON))).
Proof.
  unfold request. destruct f as [e|r].
  - split; [split; [discriminate|intros (r & H & _); discriminate]|].
    split; [intros _; now exists e|discriminate].
  - destruct (ok r) eqn:Hok; cbn [negb].
    + split; [|split].
      * split; [intros _; now exists r|].
        intros _. now destruct (json r).
      * intros H. exfalso. apply H. now destruct (json r).
      * intros r' [= <-] _ Hj. now rewrite Hj.
    + split; [|split].
      * split; [discriminate|intros (r' & [= <-] & Hok'); congruence].
      * intros _. eexists. split; reflexivity.
      * intros r' [= <-] Hok'. congruence.
Qed.

(** X7: [uploadDocuments] settles like [request] on every outcome of
    [fetch], the fallback message excepted: when they differ, the response
    is not OK, [uploadDocuments] rejects with ["Upload failed"] and
    [request] with ["HTTP error "] followed by the status. *)
Theorem uploadDocuments_settles_like_request
  (String_of : JSValue -> option jsstring) (endpoint : jsstring)
  (f : FetchOutcome) :
  uploadDocuments String_of f = snd (request String_of endpoint f)
  \/ exists r,
       f = FetchResolves r /\ ok r = false
       /\ uploadDocuments String_of f = Rejected (Error (js "Upload failed"))
       /\ snd (request String_of endpoint f)
          = Rejected (Error (js "HTTP error " ++ decimal (Api.status r))).
Proof.
  unfold request, uploadDocuments. destruct f as [e|r]; [now left|].
  destruct (ok r) eqn:Hok; cbn [negb].
  - left. now destruct (json r).
  - cbn [snd]. unfold throw_detail_or.
    destruct (get (json_or_empty r) (js "detail")) as [| |d] eqn:Hd.
    + now left.
    + right. now exists r.
    + destruct (truthy d); [now left|]. right. now exists r.
Qed.

(** X8: on a response that is not OK, both methods reject, and what they
    reject with is the TypeError of a property read on [null], instead of
    an [Error] with a message, exactly when the body is the JSON text
    [null]. *)
Theorem non_ok_response_with_null_body
  (String_of : JSValue -> option jsstring) (endpoint : jsstring)
  (r : Response) :
  ok r = false ->
  exists e1 e2,
    snd (request String_of endpoint (FetchResolves r)) = Rejected e1
    /\ uploadDocuments String_of (FetchResolves r) = Rejected e2
    /\ (e1 = Host PropertyOfNull <-> json r = Some JNull)
    /\ (e2 = Host PropertyOfNull <-> json r = Some JNull).
Proof.
  intros Hok. unfold request, uploadDocuments. rewrite Hok. cbn [negb snd].
  do 2 eexists. split; [reflexivity|]. split; [reflexivity|].
  assert (Hnull : json_or_empty r = JNull <-> json r = Some JNull).
  { unfold json_or_empty. destruct (json r) as [v|]; split;
      try discriminate; congruence. }
  now rewrite !TransportFacts.throw_detail_or_null, Hnull.
Qed.

Lemma non_ok_response_with_null_body_witness :
  let r := mkResponse false 500 (Some JNull) None in
  ok r = false
  /\ snd (request Sample.String_of (js "/chat/message") (FetchResolves r))
     = Rejected (Host PropertyOfNull)
  /\ uploadDocuments Sample.String_of (FetchResolves r)
     = Rejected (Host PropertyOfNull).
Proof.
  intros r.
  destruct (non_ok_response_with_null_body Sample.String_of
              (js "/chat/message") r eq_refl)
    as (e1 & e2 & H1 & H2 & N1 & N2).
  refine (conj eq_refl _).
  rewrite H1, H2, (proj2 N1 eq_refl), (proj2 N2 eq_refl).
  split; reflexivity.
Defined.

(** X9: the headers [request] hands to [fetch] are the headers of
    [options] when [options] has any, whatever they are: the default
    [Content-Type] is then sent only if the caller repeats it.  Without
    headers in [options] they are the default [Content-Type] alone.  Every
    other property of [options] is handed over unchanged. *)
Theorem request_config_headers (options : Transport.object) :
  lookup (js "headers") (Transport.request_config options)
  = match lookup (js "headers") options with
    | Some headers => Some headers
    | None =>
        Some (JObject [(js "Content-Type", JString (js "application/json"))])
    end
  /\ forall k, k <> js "headers" ->
       lookup k (Transport.request_config options) = lookup k options.
Proof.
  unfold Transport.request_config. split.
  - cbn [lookup]. destruct (lookup (js "headers") options); reflexivity.
  - intros k Hk. cbn [lookup].
    destruct (lookup k options); [reflexivity|].
    rewrite StringFacts.str_eqb_neq; [reflexivity|congruence].
Qed.


(** ** Further properties of the document list *)

Module DocMore.
Import JS App StringFacts.

#[local] Arguments js : simpl never.

(** The digits of a number hold no space. *)
Lemma string_of_uint_no_space (d : Decimal.uint) :
  Forall (fun c => c <> 32%N) (js (DecimalString.NilEmpty.string_of_uint d)).
Proof.
  induction d; unfold js in *; cbn; constructor; auto; discriminate.
Qed.

Lemma decimal_no_space (n : N) : Forall (fun c => c <> 32%N) (decimal n).
Proof.
  unfold decimal, DecimalString.NilZero.string_of_uint.
  destruct (N.to_uint n) eqn:E; try apply string_of_uint_no_space.
  unfold js; cbn. constructor; [discriminate|constructor].
Qed.

Lemma until_space (d1 d2 x1 x2 : jsstring) :
  Forall (fun c => c <> 32%N) d1 ->
  Forall (fun c => c <> 32%N) d2 ->
  d1 ++ 32%N :: x1 = d2 ++ 32%N :: x2 ->
  d1 = d2 /\ x1 = x2.
Proof.
  intros H1. revert d2. induction H1 as [|c d1 Hc _ IH];
    intros d2 H2 E; destruct H2 as [|c' d2 Hc' H2]; cbn in E.
  - injection E as ->. auto.
  - injection E as E _. congruence.
  - injection E as E _. congruence.
  - injection E as -> E. destruct (IH d2 H2 E) as [-> ->]. auto.
Qed.

(** The temporary id of a dropped file tells its name. *)
Lemma temp_id_inj (t1 t2 : N) (n1 n2 : jsstring) :
  js "temp - " ++ decimal t1 ++ js " -" ++ n1 ++ js " "
  = js "temp - " ++ decimal t2 ++ js " -" ++ n2 ++ js " " ->
  decimal t1 = decimal t2 /\ n1 = n2.
Proof.
  intros E. apply app_inv_head in E.
  change (js " -" ++ n1 ++ js " ") with (32%N :: 45%N :: n1 ++ js " ") in E.
  change (js " -" ++ n2 ++ js " ") with (32%N :: 45%N :: n2 ++ js " ") in E.
  apply until_space in E; try apply decimal_no_space.
  destruct E as [Ed En]. split; [exact Ed|].
  injection En as En. now apply app_inv_tail in En.
Qed.

Lemma newDocs_from_ids (Date_now : nat -> N) (i : nat) (files : list File)
  (x : jsstring) :
  In x (map id (newDocs_from Date_now i files)) ->
  exists t file,
    In file files
    /\ x = js "temp - " ++ decimal t ++ js " -" ++ name file ++ js " ".
Proof.
  revert i. induction files as [|file rest IH]; intros i; [intros []|].
  cbn [newDocs_from map id]. intros [<-|Hin].
  - exists (Date_now i), file. split; [now left|reflexivity].
  - destruct (IH _ Hin) as (t & f & Hf & ->).
    exists t, f. split; [now right|reflexivity].
Qed.

Lemma newDocs_from_fields (Date_now : nat -> N) (i : nat)
  (files : list File) :
  map filename (newDocs_from Date_now i files) = map name files
  /\ map size (newDocs_from Date_now i files) = map file_size files
  /\ Forall (fun d => status d = js "pending")
            (newDocs_from Date_now i files).
Proof.
  revert i. induction files as [|file rest IH]; intros i;
    [repeat split; constructor|].
  destruct (IH (S i)) as (Hn & Hs & Hp).
  cbn [newDocs_from map filename size]. rewrite Hn, Hs.
  repeat split. constructor; [reflexivity|exact Hp].
Qed.

(** Two entries of a list whose images are pairwise different are one
    entry when they have one image. *)
Lemma same_image_same_entry {A B : Type} (f : A -> B) (l : list A) :
  NoDup (map f l) ->
  forall x y, f x = f y -> In x l -> In y l -> x = y.
Proof.
  induction l as [|a l IH]; cbn [map]; intros Hnd x y E Hx Hy;
    [destruct Hx|].
  apply NoDup_cons_iff in Hnd as [Hfresh Hnd].
  destruct Hx as [->|Hx], Hy as [->|Hy]; auto.
  - contradiction Hfresh. rewrite E. now apply in_map.
  - contradiction Hfresh. rewrite <- E. now apply in_map.
Qed.

(** The identifier the reconciliation gives an entry. *)
Lemma reconcile_ids (response : UploadResponse) (prev : list Doc) :
  map id (reconcile response prev)
  = map (fun doc => match find_by_filename response doc with
                    | Some m => up_document_id m
                    | None => id doc
                    end) prev.
Proof.
  unfold reconcile. rewrite map_map. apply map_ext.
  intros doc. now destruct (find_by_filename response doc).
Qed.

Lemma find_by_filename_some (response : UploadResponse) (doc : Doc)
  (m : UploadedDoc) :
  find_by_filename response doc = Some m ->
  In m (up_documents response) /\ up_filename m = filename doc.
Proof.
  intros H. apply find_some in H as [Hin Heq].
  split; [exact Hin|now apply str_eqb_eq].
Qed.

(** A run of [poll] leaves everything but the statuses as it was. *)
Lemma poll_settle_frame (fetched : Outcome JobStatus) (st : State) :
  let st' := fst (fst (poll_settle fetched st)) in
  map id (documents st') = map id (documents st)
  /\ map filename (documents st') = map filename (documents st)
  /\ map size (documents st') = map size (documents st)
  /\ sessionId st' = sessionId st
  /\ messages st' = messages st
  /\ inputMessage st' = inputMessage st
  /\ isLoading st' = isLoading st
  /\ error st' = error st
  /\ showUploadPanel st' = showUploadPanel st.
Proof.
  assert (Hm : forall s docs,
             map id (merge s docs) = map id docs
             /\ map filename (merge s docs) = map filename docs
             /\ map size (merge s docs) = map size docs).
  { intros s docs. unfold merge. rewrite !map_map.
    repeat split; apply map_ext; intros d; now destruct (find_by_id s d). }
  destruct fetched as [s|]; cbn; [|repeat split].
  destruct (not_terminal s); cbn; destruct (Hm s (documents st)) as (? & ? & ?);
    repeat split; assumption.
Qed.

Lemma pollProcessingStatus_frame (jobId : jsstring)
  (server : list (Outcome JobStatus)) (st : State) :
  let st' := fst (pollProcessingStatus jobId server st) in
  map id (documents st') = map id (documents st)
  /\ map filename (documents st') = map filename (documents st)
  /\ map size (documents st') = map size (documents st)
  /\ sessionId st' = sessionId st
  /\ messages st' = messages st
  /\ inputMessage st' = inputMessage st
  /\ isLoading st' = isLoading st
  /\ error st' = error st
  /\ showUploadPanel st' = showUploadPanel st.
Proof.
  revert st. induction server as [|fetched later IH]; intros st;
    [cbn; repeat split|].
  cbn [pollProcessingStatus].
  pose proof (poll_settle_frame fetched st) as Hf.
  destruct (poll_settle fetched st) as [[st1 effects] [|]]; cbn [fst] in Hf.
  - specialize (IH st1).
    destruct (pollProcessingStatus jobId later st1) as [st2 effects'].
    cbn [fst] in *.
    destruct Hf as (a1 & a2 & a3 & a4 & a5 & a6 & a7 & a8 & a9).
    destruct IH as (b1 & b2 & b3 & b4 & b5 & b6 & b7 & b8 & b9).
    repeat split; congruence.
  - cbn [fst]. exact Hf.
Qed.

End DocMore.

(** X11: the files of one drop that have different names get different
    temporary ids, whatever the clock reads for each of them. *)
Theorem newDocs_distinct_names_distinct_ids
  (Date_now : nat -> N) (acceptedFiles : list File) :
  NoDup (map name acceptedFiles) ->
  NoDup (map id (newDocs Date_now acceptedFiles)).
Proof.
  unfold newDocs. generalize 0 as i.
  induction acceptedFiles as [|file rest IH]; intros i Hnd; [constructor|].
  cbn [map] in Hnd. inversion Hnd as [|? ? Hfresh Hrest]; subst.
  cbn [newDocs_from map id]. constructor; [|now apply IH].
  intros Hin. apply DocMore.newDocs_from_ids in Hin as (t & f & Hf & E).
  apply DocMore.temp_id_inj in E as [_ E].
  apply Hfresh. rewrite E. now apply in_map.
Qed.

Lemma newDocs_distinct_names_distinct_ids_witness :
  let files := [mkFile (js "a.pdf") 10; mkFile (js "b.pdf") 20] in
  NoDup (map name files)
  /\ NoDup (map id (newDocs (fun _ => 1700000000000%N) files)).
Proof.
  intros files.
  assert (H : NoDup (map name files)).
  { repeat constructor; vm_compute; intuition discriminate. }
  exact (conj H (newDocs_distinct_names_distinct_ids _ files H)).
Defined.

(** X12: with a session, a drop appends one entry per accepted file, in
    the order of the files, with the file's name and size and the status
    ["pending"], after the entries already there, and hands exactly these
    files to the upload; nothing else of the state changes.  When the
    upload fails, the entries stay as they are, pending ones included, the
    error text is set and no polling is started. *)
Theorem onDrop_appends_pending_entries
  (Date_now : nat -> N) (acceptedFiles : list File) (st : State) :
  falsy (sessionId st) = false ->
  exists st' added,
    onDrop_start Date_now acceptedFiles st = Some (st', acceptedFiles)
    /\ documents st' = documents st ++ added
    /\ map filename added = map name acceptedFiles
    /\ map size added = map file_size acceptedFiles
    /\ Forall (fun d => status d = js "pending") added
    /\ messages st' = messages st
    /\ error st' = error st
    /\ documents (fst (onDrop_settle Throws st')) = documents st ++ added
    /\ error (fst (onDrop_settle Throws st'))
       = Some (js "Error al subir documentos")
    /\ snd (onDrop_settle Throws st') = None.
Proof.
  intros Hs. unfold onDrop_start. rewrite Hs.
  destruct (DocMore.newDocs_from_fields Date_now 0 acceptedFiles)
    as (Hn & Hz & Hp).
  eexists. exists (newDocs Date_now acceptedFiles).
  split; [reflexivity|]. cbn. unfold newDocs.
  repeat split; assumption.
Qed.

Lemma onDrop_appends_pending_entries_witness :
  let st := Run.session (js "s") in
  let files := [mkFile (js "a.pdf") 10] in
  falsy (sessionId st) = false
  /\ exists st' added,
       onDrop_start (fun _ => 7%N) files st = Some (st', files)
       /\ documents st' = documents st ++ added
       /\ map filename added = [js "a.pdf"].
Proof.
  intros st files. refine (conj eq_refl _).
  destruct (onDrop_appends_pending_entries (fun _ => 7%N) files st eq_refl)
    as (st' & added & H1 & H2 & H3 & _).
  exists st', added. auto.
Defined.

(** X13: the reconciliation after an upload keeps the list's length and
    every entry's [filename] and [size].  An entry whose filename is the
    [filename] of some entry of the response takes the [document_id] of the
    first such entry and the status ["processing"], whatever its status
    was; an entry whose filename the response does not list is
    unchanged. *)
Theorem reconcile_updates_matching_filenames
  (response : UploadResponse) (prev : list Doc) :
  length (reconcile response prev) = length prev
  /\ Forall2
       (fun doc doc' =>
          filename doc' = filename doc /\ size doc' = size doc
          /\ ((exists l1 m l2,
                  up_documents response = l1 ++ m :: l2
                  /\ up_filename m = filename doc
                  /\ (forall m', In m' l1 -> up_filename m' <> filename doc)
                  /\ id doc' = up_document_id m
                  /\ status doc' = js "processing")
              \/ ((forall m, In m (up_documents response) ->
                             up_filename m <> filename doc)
                  /\ doc' = doc)))
       prev (reconcile response prev).
Proof.
  split; [apply length_map|].
  induction prev as [|doc prev IH]; [constructor|].
  cbn [reconcile map]. constructor; [|exact IH].
  unfold find_by_filename. destruct (find _ _) as [m|] eqn:E; cbn.
  - repeat split. left.
    destruct (DocFacts.find_first _ _ _ E) as (l1 & l2 & Hl & Hm & Hl1).
    exists l1, m, l2. repeat split; auto.
    + now apply StringFacts.str_eqb_eq.
    + intros m' Hin Heq. specialize (Hl1 m' Hin).
      apply StringFacts.str_eqb_eq in Heq. congruence.
  - repeat split. right. split; [|reflexivity].
    intros m Hin Heq. apply StringFacts.str_eqb_eq in Heq.
    pose proof (find_none _ _ E m Hin) as Hf. cbv beta in Hf. congruence.
Qed.

(** X14: the reconciliation keeps the identifiers unique when the entries
    have pairwise different filenames and identifiers, the response has
    pairwise different [document_id]s, and none of these is the identifier
    of an entry. *)
Theorem reconcile_keeps_ids_unique
  (response : UploadResponse) (prev : list Doc) :
  NoDup (map filename prev) ->
  NoDup (map id prev) ->
  NoDup (map up_document_id (up_documents response)) ->
  (forall doc m, In doc prev -> In m (up_documents response) ->
                 id doc <> up_document_id m) ->
  NoDup (map id (reconcile response prev)).
Proof.
  intros Hfn Hid Hresp Hfresh.
  rewrite DocMore.reconcile_ids.
  apply NoDup_map_NoDup_ForallPairs; [|now apply NoDup_map_inv in Hid].
  intros x y Hx Hy.
  destruct (find_by_filename response x) as [mx|] eqn:Ex;
    destruct (find_by_filename response y) as [my|] eqn:Ey; intros E.
  - apply DocMore.find_by_filename_some in Ex as [Hmx Fx].
    apply DocMore.find_by_filename_some in Ey as [Hmy Fy].
    assert (mx = my)
      by exact (DocMore.same_image_same_entry up_document_id _ Hresp
                  mx my E Hmx Hmy).
    subst my.
    apply (DocMore.same_image_same_entry filename prev Hfn x y); auto.
    congruence.
  - apply DocMore.find_by_filename_some in Ex as [Hmx _].
    exfalso. apply (Hfresh y mx Hy Hmx). now symmetry.
  - apply DocMore.find_by_filename_some in Ey as [Hmy _].
    exfalso. now apply (Hfresh x my Hx Hmy).
  - exact (DocMore.same_image_same_entry id prev Hid x y E Hx Hy).
Qed.

Lemma reconcile_keeps_ids_unique_witness :
  let prev := [mkDoc (js "d0") (js "old.pdf") 5 (js "completed");
               mkDoc (js "temp - 7 -a.pdf ") (js "a.pdf") 10 (js "pending");
               mkDoc (js "temp - 7 -b.pdf ") (js "b.pdf") 20 (js "pending")] in
  let response :=
    mkUploadResponse (js "j")
      [mkUploadedDoc (js "a.pdf") (js "d1");
       mkUploadedDoc (js "b.pdf") (js "d2")] in
  NoDup (map filename prev)
  /\ NoDup (map id prev)
  /\ NoDup (map up_document_id (up_documents response))
  /\ (forall doc m, In doc prev -> In m (up_documents response) ->
                    id doc <> up_document_id m)
  /\ NoDup (map id (reconcile response prev))
  /\ map id (reconcile response prev) = [js "d0"; js "d1"; js "d2"].
Proof.
  intros prev response.
  assert (H1 : NoDup (map filename prev))
    by (repeat constructor; vm_compute; intuition discriminate).
  assert (H2 : NoDup (map id prev))
    by (repeat constructor; vm_compute; intuition discriminate).
  assert (H3 : NoDup (map up_document_id (up_documents response)))
    by (repeat constructor; vm_compute; intuition discriminate).
  assert (H4 : forall doc m, In doc prev -> In m (up_documents response) ->
                             id doc <> up_document_id m).
  { intros doc m Hd Hm. cbn in Hd, Hm.
    destruct Hd as [<-|[<-|[<-|[]]]]; destruct Hm as [<-|[<-|[]]];
      vm_compute; discriminate. }
  exact (conj H1 (conj H2 (conj H3 (conj H4
           (conj (reconcile_keeps_ids_unique response prev H1 H2 H3 H4)
                 eq_refl))))).
Defined.

(** X15: applying the same upload response, or the same poll response,
    twice in a row gives what applying it once gives. *)
Theorem reconcile_and_merge_idempotent
  (response : UploadResponse) (polled : JobStatus) (prev : list Doc) :
  reconcile response (reconcile response prev) = reconcile response prev
  /\ merge polled (merge polled prev) = merge polled prev.
Proof.
  split.
  - unfold reconcile. rewrite map_map. apply map_ext. intros doc.
    destruct (find_by_filename response doc) as [m|] eqn:E.
    + unfold find_by_filename in *. cbn. now rewrite E.
    + now rewrite E.
  - unfold merge. rewrite map_map. apply map_ext. intros doc.
    destruct (find_by_id polled doc) as [m|] eqn:E.
    + unfold find_by_id in *. cbn. now rewrite E.
    + now rewrite E.
Qed.

(** X16: a polling loop, whatever the server answers and however long it
    runs, changes nothing but the statuses of the entries and the
    processing status: the list keeps its entries' ids, filenames and sizes
    in order, and the session, the history, the input, the loading flag
    and the error shown are untouched; a failing poll shows no error. *)
Theorem pollProcessingStatus_changes_statuses_only
  (jobId : jsstring) (server : list (Outcome JobStatus)) (st : State) :
  let st' := fst (pollProcessingStatus jobId server st) in
  map id (documents st') = map id (documents st)
  /\ map filename (documents st') = map filename (documents st)
  /\ map size (documents st') = map size (documents st)
  /\ sessionId st' = sessionId st
  /\ messages st' = messages st
  /\ inputMessage st' = inputMessage st
  /\ isLoading st' = isLoading st
  /\ error st' = error st
  /\ showUploadPanel st' = showUploadPanel st.
Proof. apply DocMore.pollProcessingStatus_frame. Qed.

Module PollMore.
Import JS App.

Lemma last_map_Some {A : Type} (s : A) (l : list A) (d : option A) :
  last (map Some (s :: l)) d = last (map Some l) (Some s).
Proof.
  revert s d. induction l as [|a l IH]; intros s d; [reflexivity|].
  change (last (map Some (s :: a :: l)) d) with (last (map Some (a :: l)) d).
  now rewrite !IH.
Qed.

Lemma deleteDocument_id_gone (docId : jsstring) (st : State) :
  ~ In docId (map id (documents (deleteDocument docId st))).
Proof.
  cbn. intros Hin. apply in_map_iff in Hin as (d & Hd & Hin).
  apply filter_In in Hin as [_ Hk]. apply negb_true_iff in Hk.
  rewrite Hd, StringFacts.str_eqb_refl in Hk. discriminate.
Qed.

Lemma merge_filter (s : JobStatus) (p : jsstring -> bool) (docs : list Doc) :
  merge s (filter (fun d => p (id d)) docs)
  = filter (fun d => p (id d)) (merge s docs).
Proof.
  induction docs as [|doc docs IH]; [reflexivity|].
  cbn [filter merge map].
  assert (E : id match find_by_id s doc with
                 | Some m => mkDoc (id doc) (filename doc) (size doc)
                                   (doc_status m)
                 | None => doc
                 end = id doc) by now destruct (find_by_id s doc).
  rewrite E. destruct (p (id doc)); cbn [map]; fold (merge s docs);
    fold (merge s (filter (fun d => p (id d)) docs)); now rewrite IH.
Qed.

(** Deleting before a run of [poll] or after it gives the same list, and
    the run goes the same way. *)
Lemma poll_settle_delete (fetched : Outcome JobStatus) (docId : jsstring)
  (st : State) :
  poll_settle fetched (deleteDocument docId st)
  = (deleteDocument docId (fst (fst (poll_settle fetched st))),
     snd (fst (poll_settle fetched st)), snd (poll_settle fetched st)).
Proof.
  destruct fetched as [s|]; [|reflexivity].
  unfold poll_settle.
  destruct (not_terminal s);
    unfold deleteDocument, setDocuments, setProcessingStatus;
    cbn [fst snd documents sessionId messages inputMessage isLoading
         processingStatus error showUploadPanel];
    now rewrite (merge_filter s (fun i => negb (str_eqb i docId))).
Qed.

Lemma pollProcessingStatus_delete (jobId docId : jsstring)
  (server : list (Outcome JobStatus)) (st : State) :
  pollProcessingStatus jobId server (deleteDocument docId st)
  = (deleteDocument docId (fst (pollProcessingStatus jobId server st)),
     snd (pollProcessingStatus jobId server st)).
Proof.
  revert st. induction server as [|fetched later IH]; intros st;
    [reflexivity|].
  cbn [pollProcessingStatus]. rewrite poll_settle_delete.
  destruct (poll_settle fetched st) as [[st1 effects] [|]]; cbn [fst snd].
  - rewrite IH.
    now destruct (pollProcessingStatus jobId later st1).
  - reflexivity.
Qed.

End PollMore.

(** X17: while a loop polls, the processing status is the last answer.  At
    the first answer whose status is ["completed"] or ["failed"] it is
    cleared.  At a request that throws it is left as it is: the last
    answer stays shown, or what was there when no answer came before. *)
Theorem pollProcessingStatus_indicator
  (jobId : jsstring) (pending : list JobStatus)
  (never : list (Outcome JobStatus)) (st : State) :
  forallb not_terminal pending = true ->
  processingStatus (fst (pollProcessingStatus jobId (map Returns pending) st))
  = last (map Some pending) (processingStatus st)
  /\ (forall s, not_terminal s = false ->
        processingStatus
          (fst (pollProcessingStatus jobId
                  (map Returns pending ++ Returns s :: never) st))
        = None)
  /\ processingStatus
       (fst (pollProcessingStatus jobId
               (map Returns pending ++ Throws :: never) st))
     = last (map Some pending) (processingStatus st).
Proof.
  revert st. induction pending as [|p pending IH]; intros st Hp.
  - cbn. split; [reflexivity|]. split; [|reflexivity].
    intros s Hs. unfold poll_settle. now rewrite Hs.
  - cbn [forallb] in Hp. apply andb_true_iff in Hp as [Hp Hrest].
    rewrite PollMore.last_map_Some.
    cbn [map app pollProcessingStatus]. unfold poll_settle. rewrite Hp.
    specialize (IH (setDocuments (merge p)
                      (setProcessingStatus (Some p) st)) Hrest).
    cbn [processingStatus setDocuments setProcessingStatus] in IH.
    destruct IH as (I1 & I2 & I3).
    repeat split.
    + destruct (pollProcessingStatus jobId (map Returns pending) _).
      exact I1.
    + intros s Hs. specialize (I2 s Hs).
      destruct (pollProcessingStatus jobId
                  (map Returns pending ++ Returns s :: never) _).
      exact I2.
    + destruct (pollProcessingStatus jobId
                  (map Returns pending ++ Throws :: never) _).
      exact I3.
Qed.

Lemma pollProcessingStatus_indicator_witness :
  let processing := mkJobStatus (js "processing") [] in
  let st := Run.session (js "s") in
  forallb not_terminal [processing; processing] = true
  /\ processingStatus
       (fst (pollProcessingStatus (js "j")
               (map Returns [processing; processing]
                  ++ Throws :: [Returns (mkJobStatus (js "completed") [])])
               st))
     = Some processing.
Proof.
  intros processing st. refine (conj eq_refl _).
  exact (proj2 (proj2 (pollProcessingStatus_indicator (js "j")
                         [processing; processing]
                         [Returns (mkJobStatus (js "completed") [])] st
                         eq_refl))).
Defined.

(** X18: deleting removes every entry that has the id, however many there
    are, and keeps the other entries, in their order; deleting an id that
    no entry has changes nothing, and so does deleting the same id
    again. *)
Theorem deleteDocument_removes_every_entry (docId : jsstring) (st : State) :
  let st' := deleteDocument docId st in
  ~ In docId (map id (documents st'))
  /\ (forall d, In d (documents st')
                <-> In d (documents st) /\ id d <> docId)
  /\ (forall a b l1 l2 l3,
        documents st' = l1 ++ a :: l2 ++ b :: l3 ->
        exists m1 m2 m3, documents st = m1 ++ a :: m2 ++ b :: m3)
  /\ (~ In docId (map id (documents st)) -> st' = st)
  /\ deleteDocument docId st' = st'.
Proof.
  assert (Hkeep : forall d : Doc,
             negb (str_eqb (id d) docId) = true <-> id d <> docId).
  { intros d. rewrite negb_true_iff. split.
    - intros H E. apply StringFacts.str_eqb_eq in E. congruence.
    - apply StringFacts.str_eqb_neq. }
  assert (Hnone : forall l : list Doc,
             ~ In docId (map id l) ->
             filter (fun d => negb (str_eqb (id d) docId)) l = l).
  { induction l as [|d l IH]; [reflexivity|]. cbn. intros Hn.
    rewrite (proj2 (Hkeep d)) by auto. f_equal. auto. }
  pose proof (PollMore.deleteDocument_id_gone docId st) as Hgone.
  cbv zeta. split; [exact Hgone|]. split; [|split; [|split]].
  - intros d. cbn. rewrite filter_In. now rewrite Hkeep.
  - cbn. generalize (documents st) as docs.
    intros docs a b l1 l2 l3.
    revert l1. induction docs as [|d docs IH]; intros l1 E.
    + destruct l1; discriminate.
    + cbn in E. destruct (negb (str_eqb (id d) docId)).
      * destruct l1 as [|x l1]; cbn in E.
        -- injection E as -> E.
           assert (Hb : In b (filter (fun d => negb (str_eqb (id d) docId))
                                docs))
             by (rewrite E; apply in_or_app; right; now left).
           apply filter_In in Hb as [Hb _].
           apply in_split in Hb as (m2 & m3 & ->).
           now exists [], m2, m3.
        -- injection E as -> E. destruct (IH _ E) as (m1 & m2 & m3 & ->).
           now exists (x :: m1), m2, m3.
      * destruct (IH _ E) as (m1 & m2 & m3 & ->).
        now exists (d :: m1), m2, m3.
  - intros Hn. unfold deleteDocument, setDocuments.
    rewrite (Hnone _ Hn). now destruct st.
  - unfold deleteDocument at 1. unfold setDocuments.
    rewrite (Hnone _ Hgone). now destruct (deleteDocument docId st).
Qed.

(** X19: deleting an id and polling commute: a loop run after the deletion
    leaves the list a loop run before it would leave, and has the same
    effects.  So no answer of the server brings a deleted entry back. *)
Theorem deleted_document_stays_deleted
  (jobId docId : jsstring) (server : list (Outcome JobStatus)) (st : State) :
  pollProcessingStatus jobId server (deleteDocument docId st)
  = (deleteDocument docId (fst (pollProcessingStatus jobId server st)),
     snd (pollProcessingStatus jobId server st))
  /\ ~ In docId
       (map id (documents
                  (fst (pollProcessingStatus jobId server
                          (deleteDocument docId st))))).
Proof.
  split; [apply PollMore.pollProcessingStatus_delete|].
  destruct (DocMore.pollProcessingStatus_frame jobId server
              (deleteDocument docId st)) as [-> _].
  apply PollMore.deleteDocument_id_gone.
Qed.

(** ** Further properties of the chat *)

Module TrimFacts.
Import JS.

Lemma trimStart_head (s : jsstring) (c : N) (r : jsstring) :
  trimStart s = c :: r -> is_whitespace c = false.
Proof.
  induction s as [|a s IH]; [discriminate|].
  cbn [trimStart]. destruct (is_whitespace a) eqn:E; [exact IH|].
  now intros [= <- _].
Qed.

Lemma trimStart_nil (s : jsstring) :
  trimStart s = [] <-> forallb is_whitespace s = true.
Proof.
  induction s as [|a s IH]; [now split|].
  cbn [trimStart forallb]. destruct (is_whitespace a); cbn [andb];
    [exact IH|split; discriminate].
Qed.

Lemma trimStart_snoc (l : jsstring) (c : N) :
  is_whitespace c = false -> trimStart (l ++ [c]) = trimStart l ++ [c].
Proof.
  intros Hc. induction l as [|a l IH]; cbn [app trimStart].
  - now rewrite Hc.
  - now destruct (is_whitespace a).
Qed.

(** A trimmed text is empty, which it is exactly when the text holds white
    space only, or begins and ends with something else. *)
Lemma trim_ends (s : jsstring) :
  (trim s = [] <-> forallb is_whitespace s = true)
  /\ (forall c r, trim s = c :: r -> is_whitespace c = false)
  /\ (forall c r, rev (trim s) = c :: r -> is_whitespace c = false).
Proof.
  unfold trim, trimEnd.
  destruct (trimStart s) as [|c r] eqn:E.
  - cbn. split; [|split; discriminate].
    split; [intros _; now apply trimStart_nil|reflexivity].
  - pose proof (trimStart_head s c r E) as Hc.
    cbn [rev]. rewrite (trimStart_snoc _ c Hc), rev_app_distr. cbn [rev app].
    split; [split; [discriminate|]|split].
    + intros H. apply trimStart_nil in H. congruence.
    + now intros c' r' [= <- _].
    + intros c' r'. change (c :: rev (trimStart (rev r)))
        with (rev (trimStart (rev r) ++ [c])).
      rewrite rev_involutive. rewrite <- (trimStart_snoc _ c Hc).
      apply trimStart_head.
Qed.

Lemma trimStart_fixed (s : jsstring) :
  (forall c r, s = c :: r -> is_whitespace c = false) -> trimStart s = s.
Proof.
  destruct s as [|c r]; [reflexivity|]. intros H. cbn.
  now rewrite (H c r eq_refl).
Qed.

Lemma trim_idempotent (s : jsstring) : trim (trim s) = trim s.
Proof.
  destruct (trim_ends s) as (_ & Hh & Hl).
  unfold trim at 1. unfold trimEnd.
  rewrite (trimStart_fixed (trim s) Hh).
  rewrite (trimStart_fixed (rev (trim s)) Hl).
  apply rev_involutive.
Qed.

End TrimFacts.

Module ChatMore.
Import JS App.

#[local] Arguments js : simpl never.
#[local] Arguments str_eqb : simpl never.

Lemma answers_follow_user (b : bool) (h : list Message) (u : Message) :
  role u = js "user" ->
  Loop.answers_follow b (h ++ [u]) = Loop.answers_follow b h.
Proof.
  intros Hu. revert b. induction h as [|m h IH]; intros b.
  - cbn. now rewrite Hu.
  - cbn [app Loop.answers_follow].
    destruct (str_eqb (role m) (js "user")); [apply IH|].
    destruct (str_eqb (role m) (js "assistant")); [|reflexivity].
    now rewrite IH.
Qed.

Lemma answers_follow_answer (b : bool) (h : list Message) (u a : Message) :
  role u = js "user" -> role a = js "assistant" ->
  Loop.answers_follow b (h ++ [u; a]) = Loop.answers_follow b h.
Proof.
  intros Hu Ha. revert b. induction h as [|m h IH]; intros b.
  - cbn. now rewrite Hu, Ha.
  - cbn [app Loop.answers_follow].
    destruct (str_eqb (role m) (js "user")); [apply IH|].
    destruct (str_eqb (role m) (js "assistant")); [|reflexivity].
    now rewrite IH.
Qed.

End ChatMore.

(** X20: [sendMessage] returns at once, with no call and no change of the
    state, exactly when the input holds white space only (the empty input
    included), or there is no session, or a send is in flight; that is,
    exactly when the send button or the text area is disabled. *)
Theorem sendMessage_rejects_blank_input (st : State) :
  (sendMessage_start st = None
   <-> forallb is_whitespace (inputMessage st) = true
       \/ falsy (sessionId st) = true
       \/ isLoading st = true)
  /\ (sendMessage_start st = None
      <-> View.send_disabled st = true \/ View.input_disabled st = true).
Proof.
  destruct (TrimFacts.trim_ends (inputMessage st)) as ([Hb1 Hb2] & _ & _).
  unfold sendMessage_start, View.send_disabled, View.input_disabled.
  assert (Hf : falsy (Some (trim (inputMessage st))) = true
               <-> forallb is_whitespace (inputMessage st) = true).
  { destruct (trim (inputMessage st)) as [|c r] eqn:E; cbn.
    - split; auto.
    - split; [discriminate|]. intros H. specialize (Hb2 H). discriminate. }
  destruct (falsy (Some (trim (inputMessage st)))) eqn:Eb;
    destruct (falsy (sessionId st)) eqn:Es;
    destruct (isLoading st) eqn:El; cbn [orb];
    repeat split; auto; try discriminate;
    try (intros [H|[H|H]]; try discriminate;
         apply Hf in H; discriminate);
    try (intros [H|H]; discriminate);
    try (intros _; left; now apply Hf).
Qed.

(** X21: the text [sendMessage] sends, which is also the content of the
    user message it appends, is the input trimmed: it is not empty, it
    neither begins nor ends with white space, and trimming it again gives
    it back. *)
Theorem sendMessage_sends_trimmed_text
  (st st' : State) (sid : option jsstring) (text : jsstring) :
  sendMessage_start st = Some (st', (sid, text)) ->
  text = trim (inputMessage st)
  /\ messages st' = messages st ++ [mkMessage (js "user") text None]
  /\ text <> []
  /\ (forall c r, text = c :: r -> is_whitespace c = false)
  /\ (forall c r, rev text = c :: r -> is_whitespace c = false)
  /\ trim text = text.
Proof.
  unfold sendMessage_start.
  destruct (falsy (Some (trim (inputMessage st))) || falsy (sessionId st)
            || isLoading st) eqn:G; [discriminate|].
  intros [= <- _ <-].
  destruct (TrimFacts.trim_ends (inputMessage st)) as (_ & Hh & Hl).
  split; [reflexivity|]. split; [reflexivity|].
  split; [|split; [exact Hh|split; [exact Hl|apply TrimFacts.trim_idempotent]]].
  intros E. rewrite E in G. discriminate.
Qed.

Lemma sendMessage_sends_trimmed_text_witness :
  let st := mkState (Some (js "s")) [] [] (jsq "  what is 'this' ?  ") false
                    None None false in
  exists st',
    sendMessage_start st = Some (st', (Some (js "s"), jsq "what is 'this' ?"))
    /\ trim (jsq "what is 'this' ?") = jsq "what is 'this' ?".
Proof.
  intros st. eexists. split; [reflexivity|].
  exact (proj2 (proj2 (proj2 (proj2 (proj2
           (sendMessage_sends_trimmed_text st _ _ _ eq_refl)))))).
Defined.

(** ** Properties of the component as a reactive system *)

Module LoopFacts.
Import JS App Loop.

#[local] Arguments js : simpl never.
#[local] Arguments str_eqb : simpl never.
#[local] Arguments trim : simpl never.

(** What an accepted [sendMessage] leaves. *)
Lemma sendMessage_start_some (st st' : State)
  (call : option jsstring * jsstring) :
  sendMessage_start st = Some (st', call) ->
  isLoading st = false /\ falsy (sessionId st) = false
  /\ isLoading st' = true
  /\ messages st'
     = messages st ++ [mkMessage (js "user") (trim (inputMessage st)) None]
  /\ documents st' = documents st /\ sessionId st' = sessionId st.
Proof.
  unfold sendMessage_start.
  destruct (falsy (Some (trim (inputMessage st)))); [discriminate|].
  destruct (falsy (sessionId st)); [discriminate|].
  destruct (isLoading st); [discriminate|].
  cbn [orb]. intros [= <- _]. repeat split.
Qed.

(** The events other than a send and the settling of one leave the
    history, the loading flag and the count of awaited sends alone. *)
Lemma react_chat_frame (s : Sys) (e : Event) :
  chat_event e = false ->
  sending (react s e) = sending s
  /\ messages (ui (react s e)) = messages (ui s)
  /\ isLoading (ui (react s e)) = isLoading (ui s).
Proof.
  destruct e; try discriminate; intros _; cbn [react].
  - destruct (creating s); [|auto]. destruct created; cbn; auto.
  - cbn; auto.
  - unfold onDrop_start. destruct (falsy _); cbn; auto.
  - destruct (uploading s); [auto|]. destruct upload; cbn; auto.
  - destruct (polling s); [auto|].
    destruct (DocMore.poll_settle_frame fetched (ui s))
      as (_ & _ & _ & _ & Hm & _ & Hl & _).
    destruct (poll_settle fetched (ui s)) as [[st eff] [|]]; cbn in *; auto.
  - cbn; auto.
  - cbn; auto.
  - cbn; auto.
  - cbn; auto.
Qed.

Lemma send_chat_invariant (s : Sys) :
  chat_invariant s -> chat_invariant (send s).
Proof.
  intros [Hf Hst]. unfold send.
  destruct (sendMessage_start (ui s)) as [[st call]|] eqn:E;
    [|now split].
  apply sendMessage_start_some in E as (Hl & _ & Hl' & Hm & _).
  destruct Hst as [[Hs _]|[_ [Hl1 _]]]; [|congruence].
  split; cbn [ui sending].
  - rewrite Hm, ChatMore.answers_follow_user; auto.
  - right. rewrite Hs. repeat split; auto. eauto.
Qed.

Lemma react_chat_invariant (s : Sys) (e : Event) :
  chat_invariant s -> chat_invariant (react s e).
Proof.
  intros Hinv. destruct (chat_event e) eqn:Ec.
  - destruct e; try discriminate; cbn [react].
    + destruct (str_eqb key (js "Enter") && negb shiftKey);
        [now apply send_chat_invariant|exact Hinv].
    + now apply send_chat_invariant.
    + destruct Hinv as [Hf Hst].
      destruct (sending s) as [|n] eqn:Es;
        [split; [exact Hf|rewrite Es; exact Hst]|].
      destruct Hst as [[Hs _]|(Hs & _ & h & u & Hm & Hu)]; [discriminate|].
      injection Hs as ->.
      split; cbn [ui sending].
      * destruct reply as [response|]; cbn; [|exact Hf].
        rewrite Hm, <- app_assoc. cbn [app].
        rewrite ChatMore.answers_follow_answer; auto.
        rewrite Hm, ChatMore.answers_follow_user in Hf; auto.
      * left. split; [reflexivity|]. now destruct reply.
  - destruct (react_chat_frame s e Ec) as (Hs & Hm & Hl).
    destruct Hinv as [Hf Hst]. split; [now rewrite Hm|].
    rewrite Hs, Hm, Hl. exact Hst.
Qed.

Lemma react_idle_invariant (s : Sys) (e : Event) :
  idle_invariant s -> idle_invariant (react s e).
Proof.
  intros Hinv. pose proof Hinv as [Hc Hi].
  assert (Hsend : idle_invariant (send s)).
  { unfold send.
    destruct (sendMessage_start (ui s)) as [[st call]|] eqn:E;
      [|exact Hinv].
    apply sendMessage_start_some in E as (_ & Hs & _ & _ & _ & Hsid).
    split; cbn [ui creating]; rewrite Hsid; [exact Hc|]. congruence. }
  assert (Hbusy : forall n, sending s = S n \/ uploading s = S n
                            \/ polling s = S n ->
                            falsy (sessionId (ui s)) = false).
  { intros n Hn. destruct (falsy (sessionId (ui s))) eqn:Ef; [|reflexivity].
    destruct (Hi eq_refl) as (_ & _ & H1 & H2 & H3).
    destruct Hn as [Hn|[Hn|Hn]]; congruence. }
  destruct e; cbn [react]; try exact Hsend; try exact Hinv.
  - destruct (creating s) eqn:Ecr; [|exact Hinv].
    specialize (Hc eq_refl).
    assert (Hf : falsy (sessionId (ui s)) = true) by now rewrite Hc.
    destruct (Hi Hf) as (Hd & Hm & H1 & H2 & H3).
    split; cbn [ui creating sending uploading polling]; [discriminate|].
    intros _. destruct created; cbn; repeat split; assumption.
  - destruct (str_eqb key (js "Enter") && negb shiftKey);
      [exact Hsend|exact Hinv].
  - destruct (sending s) as [|n] eqn:Es; [exact Hinv|].
    pose proof (Hbusy n (or_introl eq_refl)) as Hno.
    split; cbn [ui creating].
    + destruct reply; exact Hc.
    + intros Hf. assert (Hf' : falsy (sessionId (ui s)) = true)
        by (destruct reply; exact Hf).
      congruence.
  - unfold onDrop_start. destruct (falsy (sessionId (ui s))) eqn:Ef;
      [exact Hinv|].
    split; cbn [ui creating]; [exact Hc|]. cbn. congruence.
  - destruct (uploading s) as [|n] eqn:Eu; [exact Hinv|].
    pose proof (Hbusy n (or_intror (or_introl eq_refl))) as Hno.
    destruct upload; cbn; (split; cbn; [exact Hc|congruence]).
  - destruct (polling s) as [|n] eqn:Ep; [exact Hinv|].
    pose proof (Hbusy n (or_intror (or_intror eq_refl))) as Hno.
    destruct (DocMore.poll_settle_frame fetched (ui s))
      as (_ & _ & _ & Hsid & _).
    destruct (poll_settle fetched (ui s)) as [[st eff] [|]]; cbn in *;
      (split; cbn; rewrite Hsid; [exact Hc|congruence]).
  - split; cbn [ui creating with_ui]; [exact Hc|].
    intros Hf. destruct (Hi Hf) as (Hd & Hm & H1 & H2 & H3).
    cbn. rewrite Hd. repeat split; assumption.
Qed.

(** Every event leaves the history as it is or appends to it. *)
Lemma react_appends (s : Sys) (e : Event) :
  exists added, messages (ui (react s e)) = messages (ui s) ++ added.
Proof.
  assert (Hsend : exists added,
             messages (ui (send s)) = messages (ui s) ++ added).
  { unfold send.
    destruct (sendMessage_start (ui s)) as [[st call]|] eqn:E.
    - apply sendMessage_start_some in E as (_ & _ & _ & Hm & _).
      cbn [ui]. eauto.
    - exists []. now rewrite app_nil_r. }
  destruct (chat_event e) eqn:Ec.
  - destruct e; try discriminate; cbn [react]; try exact Hsend.
    + destruct (str_eqb key (js "Enter") && negb shiftKey); [exact Hsend|].
      exists []. now rewrite app_nil_r.
    + destruct (sending s); [exists []; now rewrite app_nil_r|].
      destruct reply; cbn; [eauto|]. exists []. now rewrite app_nil_r.
  - destruct (react_chat_frame s e Ec) as (_ & -> & _).
    exists []. now rewrite app_nil_r.
Qed.

(** Without an upload, the ids of the list are those it had, some taken
    out. *)
Lemma react_ids (s : Sys) (e : Event) :
  no_upload e = true ->
  exists keep,
    map id (documents (ui (react s e)))
    = filter keep (map id (documents (ui s))).
Proof.
  assert (Hsame : forall l : list jsstring, l = filter (fun _ => true) l).
  { induction l as [|a l IH]; [reflexivity|]. cbn. now rewrite <- IH. }
  assert (Hsend : map id (documents (ui (send s)))
                  = map id (documents (ui s))).
  { unfold send.
    destruct (sendMessage_start (ui s)) as [[st call]|] eqn:E; [|reflexivity].
    apply sendMessage_start_some in E as (_ & _ & _ & _ & Hd & _).
    cbn [ui]. now rewrite Hd. }
  destruct e; try discriminate; intros _; cbn [react];
    try (exists (fun _ => true); rewrite Hsend; apply Hsame);
    try (exists (fun _ => true); apply Hsame).
  - exists (fun _ => true). destruct (creating s); [|apply Hsame].
    destruct created; apply Hsame.
  - exists (fun _ => true).
    destruct (str_eqb key (js "Enter") && negb shiftKey);
      [rewrite Hsend|]; apply Hsame.
  - exists (fun _ => true). destruct (sending s); [apply Hsame|].
    destruct reply; apply Hsame.
  - exists (fun _ => true). destruct (polling s); [apply Hsame|].
    destruct (DocMore.poll_settle_frame fetched (ui s)) as (Hid & _).
    destruct (poll_settle fetched (ui s)) as [[st eff] [|]]; cbn in *;
      rewrite Hid; apply Hsame.
  - exists (fun i => negb (str_eqb i docId)). cbn.
    generalize (documents (ui s)) as docs.
    induction docs as [|d docs IH]; [reflexivity|]. cbn.
    destruct (negb (str_eqb (id d) docId)); cbn; now rewrite IH.
Qed.

End LoopFacts.

(** X22: in every state the component reaches from its mount, whatever
    the events, at most one send is awaited, the loading flag is set
    exactly while one is, and every assistant message of the history comes
    right after a user message. *)
Theorem reachable_chat_history_is_ordered (events : list Loop.Event) :
  let s := Loop.run events Loop.mounted in
  Loop.sending s <= 1
  /\ (Loop.sending s = 1 <-> isLoading (Loop.ui s) = true)
  /\ Loop.answers_follow false (messages (Loop.ui s)) = true.
Proof.
  assert (H : Loop.chat_invariant (Loop.run events Loop.mounted)).
  { unfold Loop.run. generalize Loop.mounted,
      (conj eq_refl (or_introl (conj eq_refl eq_refl))
       : Loop.chat_invariant Loop.mounted).
    induction events as [|e events IH]; intros s Hs; [exact Hs|].
    cbn [fold_left]. apply IH. now apply LoopFacts.react_chat_invariant. }
  destruct H as [Hf [[Hs Hl]|(Hs & Hl & _)]]; cbv zeta; rewrite Hs, Hl;
    repeat split; auto; try discriminate.
Qed.

(** X23: in every state the component reaches from its mount, as long as
    there is no session (none created yet, the creation failed, or the
    server gave an empty id), the document list and the history are empty
    and no send, upload or poll is awaited: drops and sends do nothing. *)
Theorem reachable_without_session_is_idle (events : list Loop.Event) :
  let s := Loop.run events Loop.mounted in
  falsy (sessionId (Loop.ui s)) = true ->
  documents (Loop.ui s) = [] /\ messages (Loop.ui s) = []
  /\ Loop.sending s = 0 /\ Loop.uploading s = 0 /\ Loop.polling s = 0.
Proof.
  assert (H : Loop.idle_invariant (Loop.run events Loop.mounted)).
  { unfold Loop.run.
    assert (H0 : Loop.idle_invariant Loop.mounted) by (split; cbn; auto).
    revert H0. generalize Loop.mounted.
    induction events as [|e events IH]; intros s Hs; [exact Hs|].
    cbn [fold_left]. apply IH. now apply LoopFacts.react_idle_invariant. }
  exact (proj2 H).
Qed.

Lemma reachable_without_session_is_idle_witness :
  let events :=
    [Loop.SessionSettles Throws; Loop.Typed (js "hi"); Loop.SendClicked;
     Loop.Dropped (fun _ => 5%N) [mkFile (js "a.pdf") 1];
     Loop.PollSettles Throws] in
  let s := Loop.run events Loop.mounted in
  falsy (sessionId (Loop.ui s)) = true
  /\ documents (Loop.ui s) = [] /\ messages (Loop.ui s) = []
  /\ Loop.sending s = 0 /\ Loop.uploading s = 0 /\ Loop.polling s = 0
  /\ error (Loop.ui s) = Some (js "Error al conectar con el servidor").
Proof.
  intros events s.
  destruct (reachable_without_session_is_idle events eq_refl)
    as (H1 & H2 & H3 & H4 & H5).
  exact (conj eq_refl (conj H1 (conj H2 (conj H3 (conj H4
           (conj H5 eq_refl)))))).
Defined.

(** X24: the history is append-only: whatever the events, from any state,
    the history after them is the history before them followed by the
    messages they added; no event removes, reorders or rewrites a
    message. *)
Theorem history_is_append_only (events : list Loop.Event) (s : Loop.Sys) :
  exists added,
    messages (Loop.ui (Loop.run events s))
    = messages (Loop.ui s) ++ added.
Proof.
  unfold Loop.run. revert s.
  induction events as [|e events IH]; intros s.
  - exists []. cbn. now rewrite app_nil_r.
  - cbn [fold_left]. destruct (IH (Loop.react s e)) as [a2 H2].
    destruct (LoopFacts.react_appends s e) as [a1 H1].
    exists (a1 ++ a2). now rewrite H2, H1, app_assoc.
Qed.

(** X25: as long as no file is dropped and no upload settles, whatever
    else happens (polls, deletions, sends), the ids of the document list
    are ids it had, in their order, and if they were pairwise different
    they stay so. *)
Theorem ids_without_upload (events : list Loop.Event) (s : Loop.Sys) :
  forallb Loop.no_upload events = true ->
  (exists keep,
      map id (documents (Loop.ui (Loop.run events s)))
      = filter keep (map id (documents (Loop.ui s))))
  /\ (NoDup (map id (documents (Loop.ui s))) ->
      NoDup (map id (documents (Loop.ui (Loop.run events s))))).
Proof.
  intros Hev.
  assert (H : exists keep,
             map id (documents (Loop.ui (Loop.run events s)))
             = filter keep (map id (documents (Loop.ui s)))).
  { unfold Loop.run. revert s.
    induction events as [|e events IH]; intros s.
    - exists (fun _ => true). cbn.
      induction (map id (documents (Loop.ui s))) as [|a l IHl];
        [reflexivity|]. cbn. now rewrite <- IHl.
    - cbn [forallb] in Hev. apply andb_true_iff in Hev as [He Hrest].
      cbn [fold_left]. destruct (IH Hrest (Loop.react s e)) as [k2 H2].
      destruct (LoopFacts.react_ids s e He) as [k1 H1].
      exists (fun i => k1 i && k2 i). rewrite H2, H1.
      generalize (map id (documents (Loop.ui s))) as l.
      induction l as [|a l IHl]; [reflexivity|]. cbn.
      destruct (k1 a); cbn; [destruct (k2 a); now rewrite IHl|exact IHl]. }
  split; [exact H|].
  destruct H as [keep ->]. apply NoDup_filter.
Qed.

Lemma ids_without_upload_witness :
  let st := mkState (Some (js "s"))
              [mkDoc (js "d1") (js "a.pdf") 1 (js "processing");
               mkDoc (js "d2") (js "b.pdf") 2 (js "processing")]
              [] [] false None None false in
  let s := Loop.mkSys st false 0 0 1 in
  let events :=
    [Loop.PollSettles
       (Returns (mkJobStatus (js "processing")
                   [mkDocStatus (js "d1") (js "completed")]));
     Loop.DeleteClicked (js "d2")] in
  forallb Loop.no_upload events = true
  /\ NoDup (map id (documents (Loop.ui s)))
  /\ NoDup (map id (documents (Loop.ui (Loop.run events s))))
  /\ documents (Loop.ui (Loop.run events s))
     = [mkDoc (js "d1") (js "a.pdf") 1 (js "completed")].
Proof.
  intros st s events.
  assert (Hn : NoDup (map id (documents (Loop.ui s))))
    by (repeat constructor; vm_compute; intuition discriminate).
  exact (conj eq_refl
           (conj Hn (conj (proj2 (ids_without_upload events s eq_refl) Hn)
                          eq_refl))).
Defined.

Module ReadyFacts.
Import JS App Loop.

#[local] Arguments js : simpl never.
#[local] Arguments str_eqb : simpl never.

#[local] Abbreviation completed :=
  (fun d : Doc => str_eqb (status d) (js "completed")).

Lemma filter_not_ready (keep : Doc -> bool) (docs : list Doc) :
  existsb completed docs = false ->
  existsb completed (filter keep docs) = false.
Proof.
  induction docs as [|d docs IH]; [reflexivity|].
  cbn [existsb filter]. intros H. apply orb_false_iff in H as [Hd Hr].
  destruct (keep d); cbn [existsb]; [rewrite Hd|]; auto.
Qed.

Lemma newDocs_not_ready (Date_now : nat -> N) (files : list File) :
  existsb completed (newDocs Date_now files) = false.
Proof.
  destruct (DocMore.newDocs_from_fields Date_now 0 files) as (_ & _ & Hp).
  unfold newDocs. induction Hp as [|d l Hd _ IH]; [reflexivity|].
  cbn [existsb]. now rewrite Hd, IH.
Qed.

Lemma reconcile_not_ready (response : UploadResponse) (docs : list Doc) :
  existsb completed docs = false ->
  existsb completed (reconcile response docs) = false.
Proof.
  induction docs as [|d docs IH]; [reflexivity|].
  cbn [existsb reconcile map]. intros H.
  apply orb_false_iff in H as [Hd Hr]. fold (reconcile response docs).
  rewrite (IH Hr). now destruct (find_by_filename response d); [|rewrite Hd].
Qed.

(** A merge makes a document ready only by a response entry that reports
    it completed. *)
Lemma merge_ready (polled : JobStatus) (docs : list Doc) :
  existsb completed docs = false ->
  existsb completed (merge polled docs) = true ->
  exists m, In m (job_documents polled)
            /\ doc_status m = js "completed"
            /\ In (document_id m) (map id docs).
Proof.
  induction docs as [|d docs IH]; [discriminate|].
  cbn [existsb merge map]. intros H.
  apply orb_false_iff in H as [Hd Hr]. fold (merge polled docs).
  intros H. apply orb_true_iff in H as [H|H].
  - destruct (find_by_id polled d) as [m|] eqn:E; [|congruence].
    apply find_some in E as [Hin Hid]. cbn in H.
    apply StringFacts.str_eqb_eq in H, Hid.
    exists m. repeat split; auto. left. now symmetry.
  - destruct (IH Hr H) as (m & Hin & Hs & Hi).
    exists m. repeat split; auto. now right.
Qed.

(** One event makes a document ready only if it is a poll answer that
    reports a listed document completed. *)
Lemma react_ready (s : Sys) (e : Event) :
  View.hasReadyDocuments (ui s) = false ->
  View.hasReadyDocuments (ui (react s e)) = true ->
  exists polled m,
    e = PollSettles (Returns polled)
    /\ In m (job_documents polled)
    /\ doc_status m = js "completed"
    /\ In (document_id m) (map id (documents (ui s))).
Proof.
  unfold View.hasReadyDocuments. intros Hno.
  assert (Hsend : existsb completed (documents (ui (send s))) = false).
  { unfold send.
    destruct (sendMessage_start (ui s)) as [[st call]|] eqn:E; [|exact Hno].
    apply LoopFacts.sendMessage_start_some in E as (_ & _ & _ & _ & Hd & _).
    cbn [ui]. now rewrite Hd. }
  destruct e; cbn [react]; try (intros H; congruence).
  - destruct (creating s); [|congruence]. destruct created; cbn; congruence.
  - cbn. congruence.
  - destruct (str_eqb key (js "Enter") && negb shiftKey); congruence.
  - destruct (sending s); [congruence|]. destruct reply; cbn; congruence.
  - unfold onDrop_start. destruct (falsy _); [congruence|]. cbn.
    rewrite existsb_app, Hno, newDocs_not_ready. discriminate.
  - destruct (uploading s); [congruence|].
    destruct upload; cbn; [|congruence].
    rewrite (reconcile_not_ready _ _ Hno). discriminate.
  - destruct (polling s); [congruence|].
    destruct fetched as [polled|]; [|cbn; congruence].
    intros H. exists polled.
    assert (Hm : existsb completed (merge polled (documents (ui s))) = true).
    { unfold poll_settle in H. now destruct (not_terminal polled). }
    destruct (merge_ready polled _ Hno Hm) as (m & H1 & H2 & H3).
    now exists m.
  - cbn. rewrite (filter_not_ready _ _ Hno). discriminate.
  - cbn. congruence.
  - cbn. congruence.
  - cbn. congruence.
Qed.

Lemma run_ready (events : list Event) (s : Sys) :
  View.hasReadyDocuments (ui s) = false ->
  View.hasReadyDocuments (ui (run events s)) = true ->
  exists polled m,
    In (PollSettles (Returns polled)) events
    /\ In m (job_documents polled)
    /\ doc_status m = js "completed".
Proof.
  unfold run. revert s. induction events as [|e events IH]; intros s Hno.
  - cbn. congruence.
  - cbn [fold_left]. intros H.
    destruct (View.hasReadyDocuments (ui (react s e))) eqn:Hstep.
    + destruct (react_ready s e Hno Hstep) as (polled & m & -> & H1 & H2 & _).
      exists polled, m. repeat split; auto. now left.
    + destruct (IH _ Hstep H) as (polled & m & H0 & H1 & H2).
      exists polled, m. repeat split; auto. now right.
Qed.

End ReadyFacts.

(** X26: after an upload whose response names the file of every entry of
    the list, every entry is ["processing"], those that were completed
    included: no document is ready and the suggestions are not shown.
    Whatever the events that follow, a document is ready again only if one
    of them is a poll answer that reports a document completed. *)
Theorem upload_of_listed_files_resets_ready
  (response : UploadResponse) (st : State) :
  (forall doc, In doc (documents st) ->
               exists m, In m (up_documents response)
                         /\ up_filename m = filename doc) ->
  let st' := fst (onDrop_settle (Returns response) st) in
  Forall (fun d => status d = js "processing") (documents st')
  /\ View.hasReadyDocuments st' = false
  /\ View.suggestions_shown st' = false
  /\ forall (s : Loop.Sys) (events : list Loop.Event),
       Loop.ui s = st' ->
       View.hasReadyDocuments (Loop.ui (Loop.run events s)) = true ->
       exists polled m,
         In (Loop.PollSettles (Returns polled)) events
         /\ In m (job_documents polled)
         /\ doc_status m = js "completed".
Proof.
  intros Hall.
  assert (Hp : Forall (fun d => status d = js "processing")
                 (reconcile response (documents st))).
  { apply Forall_forall. intros d Hd.
    apply in_map_iff in Hd as (doc & <- & Hdoc).
    destruct (Hall doc Hdoc) as (m & Hm & Hf).
    destruct (find_by_filename response doc) as [m'|] eqn:E; [reflexivity|].
    exfalso. pose proof (find_none _ _ E m Hm) as Hn. cbv beta in Hn.
    rewrite Hf, StringFacts.str_eqb_refl in Hn. discriminate. }
  assert (Hr : View.hasReadyDocuments
                 (fst (onDrop_settle (Returns response) st)) = false).
  { unfold View.hasReadyDocuments. cbn [onDrop_settle fst].
    cbn [documents setDocuments].
    induction Hp as [|d l Hd _ IH]; [reflexivity|].
    cbn [existsb]. now rewrite Hd, IH. }
  cbv zeta. split; [exact Hp|]. split; [exact Hr|]. split.
  - unfold View.suggestions_shown.
    destruct (messages _); [exact Hr|reflexivity].
  - intros s events Hs. apply ReadyFacts.run_ready. now rewrite Hs.
Qed.

Lemma upload_of_listed_files_resets_ready_witness :
  let st := mkState (Some (js "s"))
              [mkDoc (js "d1") (js "a.pdf") 1 (js "completed")]
              [] [] false None None false in
  let response :=
    mkUploadResponse (js "j2") [mkUploadedDoc (js "a.pdf") (js "d2")] in
  (forall doc, In doc (documents st) ->
               exists m, In m (up_documents response)
                         /\ up_filename m = filename doc)
  /\ View.hasReadyDocuments st = true
  /\ View.hasReadyDocuments (fst (onDrop_settle (Returns response) st))
     = false.
Proof.
  intros st response.
  assert (H : forall doc, In doc (documents st) ->
                          exists m, In m (up_documents response)
                                    /\ up_filename m = filename doc).
  { intros doc [<-|[]]. eexists. split; [left; reflexivity|reflexivity]. }
  exact (conj H (conj eq_refl
           (proj1 (proj2 (upload_of_listed_files_resets_ready response st
                            H))))).
Defined.
